(** * tinyscrews/metadata: decorator factories, deep clone and inspector

    A shallow embedding of the TypeScript sources

      - utils: [cloneDeep], [getTargetName]
      - errors: [DuplicateDecorationError], [NotImplementedError]
      - the decorator factories [DecoratorFactory] and [MethodDecoratorFactory]
      - [inspector.ts]: [MetadataInspector]

    The code works by mutating JavaScript objects that are shared between
    the caller, the factory and the reflection store, so the embedding keeps
    an explicit heap of objects addressed by location, property attributes
    (writable / enumerable / configurable) and a state-and-exception monad:
    a thrown error leaves the heap as it was at the [throw].

    Not modelled: symbol keys, accessor properties, frozen or
    non-extensible objects, the properties of the intrinsic prototypes
    ([Object.prototype], ...) and of the wrappers of primitives, and the
    index keys of arrays as property names; numbers are integers.  A
    member named like a property of [Object.prototype] ([__proto__],
    [toString], ...) is therefore outside the model wherever a metadata map
    is read or written under that name. *)

From Stdlib Require Import ZArith String Ascii List Lia DecimalString.
From stdpp Require Import base option list strings gmap.

Local Open Scope string_scope.
Local Open Scope Z_scope.
Local Open Scope list_scope.

(* ===================================================================== *)
(** ** JavaScript values and objects *)
(* ===================================================================== *)

(** Heap locations. *)
Abbreviation loc := nat (only parsing).

(** Numbers are modelled by integers (the metadata specs of interest carry
    small integer literals); [VRef] is a reference to a heap object, so
    [===] on two references is equality of locations. *)
Inductive value : Type :=
| VUndefined
| VNull
| VBool (b : bool)
| VNum (n : Z)
| VStr (s : string)
| VRef (l : loc).

#[global] Instance value_eq_dec : EqDecision value.
Proof. solve_decision. Defined.

(** A data property with its attributes. *)
Record property : Type := Property {
  p_value : value;
  p_writable : bool;
  p_enumerable : bool;
  p_configurable : bool
}.

#[global] Instance property_eq_dec : EqDecision property.
Proof. solve_decision. Defined.

(** What [instanceof Date], [instanceof Array] and [typeof] tell apart. *)
Inductive kind : Type :=
| KObject
| KArray (items : list value)
| KDate (time : Z)
| KFunction.

(** Own properties keep their insertion order ([Object.getOwnPropertyNames]
    and [Object.assign] follow it).  [o_proto = None] stands for the
    intrinsic prototype of the kind ([Object.prototype], ...), which carries
    no metadata and whose properties are not modelled. *)
Record object : Type := Object {
  o_kind : kind;
  o_props : list (string * property);
  o_proto : option loc
}.

(** Property descriptor as passed to [Object.defineProperty]; an absent
    field is [None]. *)
Record descriptor : Type := Descriptor {
  d_value : option value;
  d_writable : option bool;
  d_enumerable : option bool;
  d_configurable : option bool
}.

Inductive jstype : Type :=
| TUndefined | TObject | TBoolean | TNumber | TString | TFunction.

#[global] Instance jstype_eq_dec : EqDecision jstype.
Proof. solve_decision. Defined.

Inductive error : Type :=
| TypeError (msg : string)
| RangeError (msg : string)
| DuplicateDecorationError (msg : string)
| NotImplementedError (msg : string).

(* ===================================================================== *)
(** ** Program state: the heap and the reflection store *)
(* ===================================================================== *)

(** The reflection store maps (metadata key, target) to a metadata value. *)
Record state : Type := State {
  heap : list object;
  store : gmap (string * loc) value
}.

Inductive outcome (A : Type) : Type :=
| Ok (a : A)
| Throw (e : error).
Arguments Ok {A} a.
Arguments Throw {A} e.

Definition M (A : Type) : Type := state -> outcome A * state.

Definition ret {A} (a : A) : M A := fun st => (Ok a, st).

Definition bind {A B} (c : M A) (k : A -> M B) : M B := fun st =>
  match c st with
  | (Ok a, st') => k a st'
  | (Throw e, st') => (Throw e, st')
  end.

Definition throw {A} (e : error) : M A := fun st => (Throw e, st).

Declare Scope js_scope.
Delimit Scope js_scope with js.
Notation "x <- c ;; k" := (bind c (fun x => k))
  (at level 100, c at next level, right associativity) : js_scope.
Notation "c ;; k" := (bind c (fun _ => k))
  (at level 100, right associativity) : js_scope.
Local Open Scope js_scope.

Fixpoint mapM {A B} (f : A -> M B) (xs : list A) : M (list B) :=
  match xs with
  | [] => ret []
  | x :: xs' => y <- f x ;; ys <- mapM f xs' ;; ret (y :: ys)
  end.

(** [Array.prototype.reduce] with an initial value and an effectful callback. *)
Fixpoint reduce {A B} (f : B -> A -> M B) (xs : list A) (init : B) : M B :=
  match xs with
  | [] => ret init
  | x :: xs' => acc <- f init x ;; reduce f xs' acc
  end.

(* ===================================================================== *)
(** ** Own properties *)
(* ===================================================================== *)

Fixpoint own (k : string) (ps : list (string * property)) : option property :=
  match ps with
  | [] => None
  | (k', p) :: ps' => if decide (k = k') then Some p else own k ps'
  end.

(** Replace in place when the key exists, append otherwise. *)
Fixpoint put (k : string) (p : property) (ps : list (string * property))
  : list (string * property) :=
  match ps with
  | [] => [(k, p)]
  | (k', p') :: ps' =>
      if decide (k = k') then (k, p) :: ps' else (k', p') :: put k p ps'
  end.

Definition with_props (o : object) (ps : list (string * property)) : object :=
  Object (o_kind o) ps (o_proto o).

(** Own property, then the prototype chain; the chain is followed for at
    most [n] objects. *)
Fixpoint lookup_chain (n : nat) (h : list object) (l : loc) (k : string)
  : option property :=
  match n with
  | O => None
  | S n' =>
      match h !! l with
      | None => None
      | Some o =>
          match own k (o_props o) with
          | Some p => Some p
          | None =>
              match o_proto o with
              | Some l' => lookup_chain n' h l' k
              | None => None
              end
          end
      end
  end.

Definition find_property (h : list object) (l : loc) (k : string) : option property :=
  lookup_chain (S (length h)) h l k.

(** [v[k]] read on the heap [h] when [v] is not [null]/[undefined].
    Primitive receivers have no own properties (their wrapper prototypes
    are not modelled). *)
Definition prop_value (h : list object) (v : value) (k : string) : value :=
  match v with
  | VRef l =>
      match find_property h l k with
      | Some p => p_value p
      | None => VUndefined
      end
  | _ => VUndefined
  end.

Definition typeof (h : list object) (v : value) : jstype :=
  match v with
  | VUndefined => TUndefined
  | VNull => TObject
  | VBool _ => TBoolean
  | VNum _ => TNumber
  | VStr _ => TString
  | VRef l =>
      match h !! l with
      | Some (Object KFunction _ _) => TFunction
      | Some _ => TObject
      | None => TUndefined (* no such object: references point into the heap *)
      end
  end.

(** [v == null] *)
Definition is_nullish (v : value) : bool :=
  match v with
  | VUndefined | VNull => true
  | _ => false
  end.

(** The property key of an index. *)
Definition index_key (i : nat) : string := NilZero.string_of_uint (Nat.to_uint i).

(** ToBoolean, as used by [!meta] and [!!flag]. *)
Definition truthy (v : value) : bool :=
  match v with
  | VUndefined | VNull => false
  | VBool b => b
  | VNum n => negb (n =? 0)
  | VStr s => negb (String.eqb s "")
  | VRef _ => true
  end.

Definition isArray (h : list object) (v : value) : bool :=
  match v with
  | VRef l =>
      match h !! l with
      | Some (Object (KArray _) _ _) => true
      | _ => false
      end
  | _ => false
  end.

(* ===================================================================== *)
(** ** Heap operations *)
(* ===================================================================== *)

Definition alloc (o : object) : M value := fun st =>
  (Ok (VRef (length (heap st))), State (heap st ++ [o]) (store st)).

(** [v[k]] *)
Definition Get (v : value) (k : string) : M value := fun st =>
  if is_nullish v
  then (Throw (TypeError ("Cannot read properties of undefined (reading '" +:+ k +:+ "')")), st)
  else (Ok (prop_value (heap st) v k), st).

Definition data_property (x : value) : property := Property x true true true.

Definition set_value (p : property) (x : value) : property :=
  Property x (p_writable p) (p_enumerable p) (p_configurable p).

(** The object [o] at [l] gets [k] bound to [p]. *)
Definition write_property (l : loc) (o : object) (k : string) (p : property) : M unit :=
  fun st =>
    (Ok tt, State (<[l := with_props o (put k p (o_props o))]> (heap st)) (store st)).

(** [v[k] = x] in strict mode (modules and class bodies are strict): writing
    through a read-only own or inherited property, or on a primitive, throws. *)
Definition Set_ (v : value) (k : string) (x : value) : M unit := fun st =>
  match v with
  | VRef l =>
      match heap st !! l with
      | None => (Throw (TypeError "Cannot set properties of undefined"), st)
      | Some o =>
          let refuse :=
            (Throw (TypeError ("Cannot assign to read only property '" +:+ k +:+ "'")), st) in
          match own k (o_props o) with
          | Some p =>
              if p_writable p then write_property l o k (set_value p x) st else refuse
          | None =>
              match find_property (heap st) l k with
              | Some p =>
                  if p_writable p then write_property l o k (data_property x) st else refuse
              | None => write_property l o k (data_property x) st
              end
          end
      end
  | VUndefined | VNull => (Throw (TypeError "Cannot set properties of undefined"), st)
  | _ => (Throw (TypeError ("Cannot create property '" +:+ k +:+ "'")), st)
  end.

Definition from_option {A} (d : A) (o : option A) : A :=
  match o with Some a => a | None => d end.

(** ValidateAndApplyPropertyDescriptor for data properties: [None] when the
    redefinition is rejected. *)
Definition apply_descriptor (current : option property) (d : descriptor)
  : option property :=
  match current with
  | None =>
      Some (Property (from_option VUndefined (d_value d))
                     (from_option false (d_writable d))
                     (from_option false (d_enumerable d))
                     (from_option false (d_configurable d)))
  | Some p =>
      let rejected :=
        negb (p_configurable p) &&
        ( bool_decide (d_configurable d = Some true)
          || match d_enumerable d with
             | Some e => negb (Bool.eqb e (p_enumerable p))
             | None => false
             end
          || (negb (p_writable p) &&
              ( bool_decide (d_writable d = Some true)
                || match d_value d with
                   | Some x => negb (bool_decide (x = p_value p))
                   | None => false
                   end))) in
      if rejected then None
      else Some (Property (from_option (p_value p) (d_value d))
                          (from_option (p_writable p) (d_writable d))
                          (from_option (p_enumerable p) (d_enumerable d))
                          (from_option (p_configurable p) (d_configurable d)))
  end.

(** [Object.defineProperty(v, k, d)] *)
Definition defineProperty (v : value) (k : string) (d : descriptor) : M unit := fun st =>
  match v with
  | VRef l =>
      match heap st !! l with
      | None => (Throw (TypeError "Object.defineProperty called on non-object"), st)
      | Some o =>
          match apply_descriptor (own k (o_props o)) d with
          | Some p => write_property l o k p st
          | None => (Throw (TypeError ("Cannot redefine property: " +:+ k)), st)
          end
      end
  | _ => (Throw (TypeError "Object.defineProperty called on non-object"), st)
  end.

(** [Object.getOwnPropertyNames(v)] for a non-array object: every own
    string key, enumerable or not. *)
Definition getOwnPropertyNames (v : value) : M (list string) := fun st =>
  match v with
  | VRef l =>
      match heap st !! l with
      | Some o => (Ok (map fst (o_props o)), st)
      | None => (Ok [], st)
      end
  | _ => (Ok [], st)
  end.

(** [Object.create(Object.getPrototypeOf(v))] *)
Definition create_like (v : value) : M value := fun st =>
  match v with
  | VRef l =>
      match heap st !! l with
      | Some o => alloc (Object KObject [] (o_proto o)) st
      | None => alloc (Object KObject [] None) st
      end
  | _ => alloc (Object KObject [] None) st
  end.

Definition kind_of (v : value) : M (option kind) := fun st =>
  match v with
  | VRef l => (Ok (o_kind <$> heap st !! l), st)
  | _ => (Ok None, st)
  end.

Definition Typeof (v : value) : M jstype := fun st => (Ok (typeof (heap st) v), st).

(* ===================================================================== *)
(** ** utils/clone-deep.ts *)
(* ===================================================================== *)

(** [cloneDeep], one call per unit of [depth] (the call stack); running out
    of stack is the [RangeError] of an unbounded recursion.

    The last branch is the source's: the [reduce] builds the copy in a
    fresh object, its result is dropped, and the function falls through to
    [return source]. *)
Fixpoint cloneDeep (depth : nat) (source : value) : M value :=
  match depth with
  | O => throw (RangeError "Maximum call stack size exceeded")
  | S d =>
      t <- Typeof source ;;
      if negb (bool_decide (t = TObject)) || bool_decide (source = VNull)
      then ret source
      else
        k <- kind_of source ;;
        match k with
        | Some (KDate time) => alloc (Object (KDate time) [] None)
        | Some (KArray items) =>
            items' <- mapM (cloneDeep d) items ;;
            alloc (Object (KArray items') [] None)
        | _ =>
            names <- getOwnPropertyNames source ;;
            o0 <- create_like source ;;
            _ <- reduce (fun o key =>
                           x <- Get source key ;;
                           c <- cloneDeep d x ;;
                           Set_ o key c ;;
                           ret o) names o0 ;;
            ret source
        end
  end.

(** The [descriptorOrIndex] argument: absent, the index of a parameter, or
    the descriptor of a method. *)
Inductive site : Type :=
| NoDescriptor
| ParameterIndex (i : nat)
| MethodDescriptor.

(** String conversion inside a template literal, for the primitives. *)
Definition to_display (v : value) : string :=
  match v with
  | VUndefined => "undefined"
  | VNull => "null"
  | VBool true => "true"
  | VBool false => "false"
  | VNum n => NilZero.string_of_int (Z.to_int n)
  | VStr s => s
  | VRef _ => "[object Object]"
  end.

Definition instanceof_Function (v : value) : M bool := fun st =>
  (Ok (bool_decide (typeof (heap st) v = TFunction)), st).

(** [getTargetName]: a readable name for the decoration site; [member] is
    a string (symbol-named members are not modelled). *)
Definition getTargetName (target : loc) (member : option string) (descriptorOrIndex : site)
  : M string :=
  is_fn <- instanceof_Function (VRef target) ;;
  name <- (if is_fn : bool
           then n <- Get (VRef target) "name" ;; ret (to_display n)
           else c <- Get (VRef target) "constructor" ;;
                n <- Get c "name" ;;
                ret (to_display n +:+ ".prototype")) ;;
  match member, descriptorOrIndex with
  | None, NoDescriptor => ret ("class " +:+ name)
  | _, _ =>
      let member := match member with
                    | None => "constructor"
                    | Some m => if String.eqb m "" then "constructor" else m
                    end in
      let memberAccessor := "." +:+ member in
      match descriptorOrIndex with
      | ParameterIndex i =>
          ret (name +:+ memberAccessor +:+ "[" +:+ NilZero.string_of_uint (Nat.to_uint i) +:+ "]")
      | MethodDescriptor => ret (name +:+ memberAccessor +:+ "()")
      | NoDescriptor => ret (name +:+ memberAccessor)
      end
  end.

(* ===================================================================== *)
(** ** errors *)
(* ===================================================================== *)

Definition new_NotImplementedError (decoratorName message : string) : error :=
  NotImplementedError ("not implemented for " +:+ decoratorName +:+ ": " +:+ message).

Definition new_DuplicateDecorationError (decoratorName : string) (target : loc)
    (member : option string) (descriptorOrIndex : site) : M error :=
  n <- getTargetName target member descriptorOrIndex ;;
  ret (DuplicateDecorationError ("duplicate " +:+ decoratorName +:+ " on " +:+ n)).

(* ===================================================================== *)
(** ** The reflection store *)
(* ===================================================================== *)

(** Modelled from the spec: the [Reflection] module ([./reflect]) is
    imported by the factory and the inspector but is not among the sources.
    Section 4.2 of the specification gives its contract: [getOwn] is the
    value defined directly on the target, [getEffective] is the own value if
    present and otherwise the nearest ancestor's along the prototype chain,
    [define] stores or overwrites the own value.  Absence reads as
    [undefined]. *)
Definition getOwnMetadata (key : string) (target : loc) : M value := fun st =>
  (Ok (from_option VUndefined (store st !! (key, target))), st).

Fixpoint effective (n : nat) (h : list object) (s : gmap (string * loc) value)
    (key : string) (target : loc) : value :=
  match n with
  | O => VUndefined
  | S n' =>
      match s !! (key, target) with
      | Some v => v
      | None =>
          match o_proto <$> h !! target with
          | Some (Some parent) => effective n' h s key parent
          | _ => VUndefined
          end
      end
  end.

Definition getMetadata (key : string) (target : loc) : M value := fun st =>
  (Ok (effective (S (length (heap st))) (heap st) (store st) key target), st).

Definition defineMetadata (key : string) (v : value) (target : loc) : M unit := fun st =>
  (Ok tt, State (heap st) (<[(key, target) := v]> (store st))).

(* ===================================================================== *)
(** ** DecoratorFactory and MethodDecoratorFactory *)
(* ===================================================================== *)

(** An optional property of an options object: missing, present with the
    value [undefined], or present with a value. *)
Inductive field (A : Type) : Type :=
| Absent
| Undefined
| Given (a : A).
Arguments Absent {A}.
Arguments Undefined {A}.
Arguments Given {A} a.

Record DecoratorOptions : Type := Options {
  opt_decoratorName : field string;
  opt_allowInheritance : field bool;
  opt_cloneInputSpec : field bool
}.

(** [{}] *)
Definition no_options : DecoratorOptions := Options Absent Absent Absent.

(** [{ k: d, ...options }] for one key: a present property of [options]
    wins, even when its value is [undefined]. *)
Definition spread_over {A} (d : A) (f : field A) : field A :=
  match f with
  | Absent => Given d
  | _ => f
  end.

Definition flag (f : field bool) : bool :=
  match f with
  | Given b => b
  | _ => false
  end.

Inductive factory_class : Type :=
| DecoratorFactory
| MethodDecoratorFactory.

(** [this.constructor.name] *)
Definition class_name (c : factory_class) : string :=
  match c with
  | DecoratorFactory => "DecoratorFactory"
  | MethodDecoratorFactory => "MethodDecoratorFactory"
  end.

(** [name.replace(/Factory$/, '')] *)
Definition replace_Factory (name : string) : string :=
  let n := String.length name in
  if ((7 <=? n)%nat && String.eqb (substring (n - 7) 7 name) "Factory")%bool
  then substring 0 (n - 7) name
  else name.

Record factory : Type := Factory {
  class_of : factory_class;
  key : string;
  spec : value;
  options : DecoratorOptions;
  decoratorName : string
}.

(** A constant to reference the target of a decoration *)
Definition TARGET : string := "__decoratorTarget".

(** The constructor.  [depth] is the stack available to [cloneDeep]. *)
Definition new_factory (depth : nat) (cls : factory_class) (key : string) (spec : value)
    (options : option DecoratorOptions) : M factory :=
  let options := from_option no_options options in
  let options := Options (opt_decoratorName options)
                         (spread_over true (opt_allowInheritance options))
                         (spread_over true (opt_cloneInputSpec options)) in
  let decoratorName := match opt_decoratorName options with
                       | Given n => n
                       | _ => replace_Factory (class_name cls)
                       end in
  spec <- (if flag (opt_cloneInputSpec options)
           then cloneDeep depth spec
           else ret spec) ;;
  ret (Factory cls key spec options decoratorName).

Definition allowInheritance (this : factory) : bool :=
  flag (opt_allowInheritance (options this)).

Definition IsArray (v : value) : M bool := fun st => (Ok (isArray (heap st) v), st).

(** The own enumerable string-keyed properties of [ToObject(v)], as
    [Object.assign] reads them from its source. *)
Fixpoint enumerable_own (ps : list (string * property)) : list (string * value) :=
  match ps with
  | [] => []
  | (k, p) :: ps' =>
      if p_enumerable p then (k, p_value p) :: enumerable_own ps' else enumerable_own ps'
  end.

Definition enumerable_entries (h : list object) (v : value) : list (string * value) :=
  match v with
  | VRef l =>
      match h !! l with
      | Some o =>
          match o_kind o with
          | KArray items => imap (fun i x => (index_key i, x)) items
          | _ => []
          end
          ++ enumerable_own (o_props o)
      | None => []
      end
  | VStr s =>
      imap (fun i c => (index_key i, VStr (String c EmptyString))) (list_ascii_of_string s)
  | _ => []
  end.

(** [Object.assign(target, source)].  The source's entries are read up
    front: the writes only touch [target], and when [target] is the source
    itself they write back the values just read. *)
Definition Object_assign (target source : value) : M value :=
  entries <- (fun st => (Ok (enumerable_entries (heap st) source), st)) ;;
  _ <- reduce (fun (_ : unit) kv => Set_ target (fst kv) (snd kv)) entries tt ;;
  ret target.

(** Inherit metadata from base classes: merges base metadata into the spec
    if [allowInheritance] is set. *)
Definition inherit (this : factory) (inheritedMetadata : value) : M value :=
  if negb (allowInheritance this) then ret (spec this)
  else if is_nullish inheritedMetadata then ret (spec this)
  else if is_nullish (spec this) then ret inheritedMetadata
  else
    t <- Typeof inheritedMetadata ;;
    if negb (bool_decide (t = TObject)) then ret (spec this)
    else
      a <- IsArray inheritedMetadata ;;
      b <- IsArray (spec this) ;;
      if (a || b)%bool then ret (spec this)
      else Object_assign inheritedMetadata (spec this).

(** Set a reference to the target class or prototype for a given spec if
    it is an object. *)
Definition withTarget (sp : value) (target : loc) : M value :=
  t <- Typeof sp ;;
  if (bool_decide (t = TObject) && negb (is_nullish sp))%bool
  then
    defineProperty sp TARGET
      (Descriptor (Some (VRef target)) None (Some false) (Some false)) ;;
    ret sp
  else ret sp.

(** Get the optional decoration target of a given spec. *)
Definition getTarget (sp : value) : M value :=
  t <- Typeof sp ;;
  if (bool_decide (t = TObject) && negb (is_nullish sp))%bool
  then Get sp TARGET
  else ret VUndefined.

(** [obj[name]] with an optional name: [undefined] is the key ["undefined"]. *)
Definition property_key (name : option string) : string :=
  from_option "undefined" name.

(** A parameter default [= {}]. *)
Definition or_empty_object (v : value) : M value :=
  if bool_decide (v = VUndefined) then alloc (Object KObject [] None) else ret v.

Definition DecoratorFactory_mergeWithInherited (this : factory) (inheritedMetadata : value)
    (target : loc) (member : option string) (descriptorOrIndex : site) : M value :=
  throw (new_NotImplementedError (decoratorName this) "mergeWithInherited()").

Definition DecoratorFactory_mergeWithOwn (this : factory) (ownMetadata : value)
    (target : loc) (member : option string) (descriptorOrIndex : site) : M value :=
  throw (new_NotImplementedError (decoratorName this) "mergeWithOwn()").

Definition MethodDecoratorFactory_mergeWithInherited (this : factory)
    (inheritedMetadata : value) (target : loc) (methodName : option string)
    (methodDescriptor : site) : M value :=
  inheritedMetadata <- or_empty_object inheritedMetadata ;;
  existing <- Get inheritedMetadata (property_key methodName) ;;
  merged <- inherit this existing ;;
  tagged <- withTarget merged target ;;
  Set_ inheritedMetadata (property_key methodName) tagged ;;
  ret inheritedMetadata.

Definition MethodDecoratorFactory_mergeWithOwn (this : factory)
    (ownMetadata : value) (target : loc) (methodName : option string)
    (methodDescriptor : site) : M value :=
  ownMetadata <- or_empty_object ownMetadata ;;
  existing <- Get ownMetadata (property_key methodName) ;;
  origin <- getTarget existing ;;
  if bool_decide (origin = VRef target)
  then
    e <- new_DuplicateDecorationError (decoratorName this) target methodName methodDescriptor ;;
    throw e
  else
    tagged <- withTarget (spec this) target ;;
    Set_ ownMetadata (property_key methodName) tagged ;;
    ret ownMetadata.

(** Method dispatch on the class of [this]. *)
Definition mergeWithInherited (this : factory) :
    value -> loc -> option string -> site -> M value :=
  match class_of this with
  | DecoratorFactory => DecoratorFactory_mergeWithInherited this
  | MethodDecoratorFactory => MethodDecoratorFactory_mergeWithInherited this
  end.

Definition mergeWithOwn (this : factory) :
    value -> loc -> option string -> site -> M value :=
  match class_of this with
  | DecoratorFactory => DecoratorFactory_mergeWithOwn this
  | MethodDecoratorFactory => MethodDecoratorFactory_mergeWithOwn this
  end.

(** Base implementation of the decorator function. *)
Definition decorate (depth : nat) (this : factory) (target : loc)
    (member : option string) (descriptorOrIndex : site) : M unit :=
  meta <- getOwnMetadata (key this) target ;;
  meta <- (if (negb (truthy meta) && allowInheritance this)%bool
           then
             (* Clone the base metadata so that it won't be accidentally
                mutated by sub classes *)
             meta <- getMetadata (key this) target ;;
             meta <- cloneDeep depth meta ;;
             mergeWithInherited this meta target member descriptorOrIndex
           else
             mergeWithOwn this meta target member descriptorOrIndex) ;;
  defineMetadata (key this) meta target.

(** A method decorator: applied to a target (class or prototype), a method
    name and the method's descriptor. *)
Definition MethodDecorator : Type := loc -> string -> site -> M unit.

Definition create (depth : nat) (this : factory) : M MethodDecorator :=
  match class_of this with
  | DecoratorFactory => throw (new_NotImplementedError (decoratorName this) "create()")
  | MethodDecoratorFactory =>
      ret (fun target methodName descriptor =>
             decorate depth this target (Some methodName) descriptor)
  end.

(** [MethodDecoratorFactory.createDecorator(key, spec, options)] *)
Definition createDecorator (depth : nat) (key : string) (spec : value)
    (options : option DecoratorOptions) : M MethodDecorator :=
  this <- new_factory depth MethodDecoratorFactory key spec options ;;
  create depth this.

(* ===================================================================== *)
(** ** inspector.ts *)
(* ===================================================================== *)

Record InspectionOptions : Type := Inspection {
  ownMetadataOnly : option bool
}.

(** [options?.ownMetadataOnly], as a condition *)
Definition own_only (options : option InspectionOptions) : bool :=
  match options with
  | Some o => from_option false (ownMetadataOnly o)
  | None => false
  end.

Definition getAllMethodMetadata (key : string) (target : loc)
    (options : option InspectionOptions) : M value :=
  if own_only options then getOwnMetadata key target else getMetadata key target.

(** [v?.[k]] *)
Definition optional_member (v : value) (k : string) : M value :=
  if is_nullish v then ret VUndefined else Get v k.

Definition getMethodMetadata (key : string) (target : loc) (methodName : option string)
    (options : option InspectionOptions) : M value :=
  all <- getAllMethodMetadata key target options ;;
  optional_member all (from_option "" methodName).

Definition getAllParameterMetadata (key : string) (target : loc)
    (methodName : option string) (options : option InspectionOptions) : M value :=
  let methodName := from_option "" methodName in
  meta <- (if own_only options then getOwnMetadata key target else getMetadata key target) ;;
  optional_member meta methodName.

(** [v?.[index]]: an element of an array, a property otherwise. *)
Definition optional_index (v : value) (index : nat) : M value := fun st =>
  match v with
  | VRef l =>
      match heap st !! l with
      | Some (Object (KArray items) _ _) => (Ok (from_option VUndefined (items !! index)), st)
      | _ => optional_member v (index_key index) st
      end
  | _ => optional_member v (index_key index) st
  end.

Definition getParameterMetadata (key : string) (target : loc) (methodName : string)
    (index : nat) (options : option InspectionOptions) : M value :=
  all <- getAllParameterMetadata key target (Some methodName) options ;;
  optional_index all index.

(* ===================================================================== *)
(** ** Class declarations and literals used in the scenarios *)
(* ===================================================================== *)

(** [class Base { foo() {} }], [class Sub extends Base { foo() {} }] and an
    unrelated [class Other { bar() {} }]: constructors, prototypes and
    method functions, with the attributes a class declaration gives them. *)
Definition method_property (v : value) : property := Property v true false true.
Definition name_property (n : string) : property := Property (VStr n) false false true.
Definition prototype_property (l : loc) : property := Property (VRef l) false false false.

Definition Base : loc := 0%nat.
Definition Base_prototype : loc := 1%nat.
Definition Sub : loc := 3%nat.
Definition Sub_prototype : loc := 4%nat.
Definition Other : loc := 6%nat.
Definition Other_prototype : loc := 7%nat.

Definition class_heap : list object :=
  [ Object KFunction [("name", name_property "Base");
                      ("prototype", prototype_property Base_prototype)] None;
    Object KObject [("constructor", method_property (VRef Base));
                    ("foo", method_property (VRef 2%nat))] None;
    Object KFunction [("name", name_property "foo")] None;
    Object KFunction [("name", name_property "Sub");
                      ("prototype", prototype_property Sub_prototype)] (Some Base);
    Object KObject [("constructor", method_property (VRef Sub));
                    ("foo", method_property (VRef 5%nat))] (Some Base_prototype);
    Object KFunction [("name", name_property "foo")] None;
    Object KFunction [("name", name_property "Other");
                      ("prototype", prototype_property Other_prototype)] None;
    Object KObject [("constructor", method_property (VRef Other));
                    ("bar", method_property (VRef 8%nat))] None;
    Object KFunction [("name", name_property "bar")] None ].

(** The classes are declared and nothing is decorated yet. *)
Definition classes_declared : state := State class_heap ∅.

(** An object literal [{k1: v1, ...}] and an array literal [[v1, ...]]. *)
Definition literal (ps : list (string * value)) : M value :=
  alloc (Object KObject (map (fun kv => (fst kv, data_property (snd kv))) ps) None).

Definition array_literal (items : list value) : M value :=
  alloc (Object (KArray items) [] None).

(** Stack depth available in the scenarios. *)
Definition stack : nat := 32%nat.

(** What a structural comparison sees of a value: its enumerable entries. *)
Definition entries (st : state) (v : value) : list (string * value) :=
  enumerable_entries (heap st) v.

(** The own property [k] of the object at [l], with its attributes. *)
Definition own_property (st : state) (l : loc) (k : string) : option property :=
  o ← heap st !! l; own k (o_props o).

Definition own_value (st : state) (l : loc) (k : string) : option value :=
  p_value <$> own_property st l k.

(** A spec the origin tag applies to: [typeof spec === 'object' && spec != null]. *)
Definition object_valued (st : state) (v : value) : Prop :=
  typeof (heap st) v = TObject ∧ is_nullish v = false.

(** A primitive or [null]: anything but a reference. *)
Definition primitive (v : value) : bool :=
  match v with
  | VRef _ => false
  | _ => true
  end.

(** [Set] would not be refused for key [k] on the object at [l]. *)
Definition assignable (h : list object) (l : loc) (k : string) : bool :=
  match h !! l with
  | Some o =>
      match own k (o_props o) with
      | Some p => p_writable p
      | None =>
          match find_property h l k with
          | Some p => p_writable p
          | None => true
          end
      end
  | None => false
  end.

(** The run of a program: its outcome and the state it leaves. *)
Definition outcome_of {A} (c : M A) (st : state) : outcome A := fst (c st).
Definition state_after {A} (c : M A) (st : state) : state := snd (c st).

(** *** Scenarios *)

(** The factory that [createDecorator("K", spec)] constructs, with the
    default options filled in. *)
Definition K_factory (sp : value) : factory :=
  Factory MethodDecoratorFactory "K" sp (Options Absent (Given true) (Given true))
          "MethodDecorator".

(** [@d1 foo() {}] in [Base] with spec [s1], then [@d2 foo() {}] in [Sub]
    with spec [s2]: two decorators of the same key. *)
Definition decorate_base_then_sub (s1 s2 : M value) : M unit :=
  spec1 <- s1 ;;
  d1 <- createDecorator stack "K" spec1 None ;;
  d1 Base_prototype "foo" MethodDescriptor ;;
  spec2 <- s2 ;;
  d2 <- createDecorator stack "K" spec2 None ;;
  d2 Sub_prototype "foo" MethodDescriptor.

(** The same decorator applied twice to [Base.prototype.foo]. *)
Definition decorate_twice (s : M value) : M unit :=
  sp <- s ;;
  d <- createDecorator stack "K" sp None ;;
  d Base_prototype "foo" MethodDescriptor ;;
  d Base_prototype "foo" MethodDescriptor.

(** The caller keeps its spec object, builds a decorator from it and
    applies it once. *)
Definition decorate_once (s : M value) : M value :=
  sp <- s ;;
  d <- createDecorator stack "K" sp None ;;
  d Base_prototype "foo" MethodDescriptor ;;
  ret sp.

(** [inherit] on literals: the inherited value, the new spec, the merge. *)
Definition merge_of (inherited sp : M value) : M (value * value * value) :=
  i <- inherited ;;
  s <- sp ;;
  this <- new_factory stack MethodDecoratorFactory "K" s None ;;
  r <- inherit this i ;;
  ret (i, spec this, r).

Definition only_own : option InspectionOptions := Some (Inspection (Some true)).

(** States in which the caller has evaluated its spec literals (they are
    the objects at locations 9 and 10, after the classes). *)
Definition two_arrays : state :=
  state_after (i <- array_literal [VNum 1; VNum 2] ;; array_literal [VNum 3])
              classes_declared.

Definition two_objects : state :=
  state_after (i <- literal [("a", VNum 1); ("b", VNum 2)] ;;
               literal [("b", VNum 3); ("c", VNum 4)]) classes_declared.

Definition role_admin : state :=
  state_after (literal [("role", VStr "admin")]) classes_declared.

Definition two_specs : state :=
  state_after (i <- literal [("role", VStr "admin")] ;; literal [("level", VNum 5)])
              classes_declared.

(** [Base.prototype.foo] decorated with the first of them. *)
Definition base_decorated : state :=
  state_after (decorate stack (K_factory (VRef 9%nat)) Base_prototype (Some "foo")
                 MethodDescriptor) two_specs.

(** The names of the properties of [Object.prototype].  An object literal
    [{}] inherits them, and the heap does not hold the intrinsic
    prototypes: what the code does with a member of one of these names
    (reading [map["toString"]], assigning [map["__proto__"]]) is outside
    the model, and what is proved about the slot of a member is stated for
    the other names. *)
Definition Object_prototype_names : list string :=
  ["constructor"; "hasOwnProperty"; "isPrototypeOf"; "propertyIsEnumerable";
   "toLocaleString"; "toString"; "valueOf"; "__proto__";
   "__defineGetter__"; "__defineSetter__"; "__lookupGetter__"; "__lookupSetter__"].

Definition inherited_by_every_map (k : string) : bool :=
  existsb (String.eqb k) Object_prototype_names.

(** Metadata stored for [Base.prototype] by other means than a method
    decorator, [Reflect.defineMetadata("K", {foo: {a: 1}}, Base.prototype)]:
    the slot of [foo] holds an object without origin tag. *)
Definition foreign_metadata : state :=
  state_after (o <- literal [("a", VNum 1)] ;;
               m <- literal [("foo", o)] ;;
               defineMetadata "K" m Base_prototype) classes_declared.

(** The same decorator applied twice to [Sub.prototype.foo]. *)
Definition decorate_sub_twice (s : M value) : M unit :=
  sp <- s ;;
  d <- createDecorator stack "K" sp None ;;
  d Sub_prototype "foo" MethodDescriptor ;;
  d Sub_prototype "foo" MethodDescriptor.

(** [st'] is [st] with the property [k] of the object at [l] bound to [p]. *)
Definition property_written (st st' : state) (l : loc) (k : string) (p : property) : Prop :=
  exists o, heap st !! l = Some o /\
            st' = State (<[l := with_props o (put k p (o_props o))]> (heap st)) (store st).

(** [st'] is reached from [st] by heap operations: the reflection store is
    the same and every object of [st] is still there with its kind and its
    prototype. *)
Record grows (st st' : state) : Prop := Grows {
  grows_store : store st' = store st;
  grows_shape : forall l o, heap st !! l = Some o ->
    exists o', heap st' !! l = Some o' /\ o_kind o' = o_kind o /\ o_proto o' = o_proto o
}.

(** Errors of the language runtime, as opposed to the library's own. *)
Definition runtime_error (e : error) : Prop :=
  match e with
  | TypeError _ | RangeError _ => True
  | _ => False
  end.

(** A heap operation: it leaves a grown state when it returns, and throws
    runtime errors only. *)
Definition heap_op {A} (c : M A) : Prop :=
  forall st,
    match c st with
    | (Ok _, st') => grows st st'
    | (Throw e, _) => runtime_error e
    end.

(** The slot [k] of the own metadata of [target] under [key] holds an
    object whose origin tag is [target] itself. *)
Definition site_tagged (st : state) (key : string) (target : loc) (k : string) : Prop :=
  exists m r,
    store st !! (key, target) = Some (VRef m) /\
    own_value st m k = Some (VRef r) /\
    own_value st r TARGET = Some (VRef target) /\
    typeof (heap st) (VRef r) = TObject.

(** The value a run of assignments [es] leaves under key [k], if any: the
    last one written. *)
Fixpoint assigned (k : string) (es : list (string * value)) : option value :=
  match es with
  | [] => None
  | (k', v) :: es' =>
      match assigned k es' with
      | Some x => Some x
      | None => if decide (k = k') then Some v else None
      end
  end.

(** A computation that never writes the reflection store, whether it
    returns or throws. *)
Definition store_kept {A} (c : M A) : Prop :=
  forall st, store (snd (c st)) = store st.

(** A reference to an object allocated at or after position [n]. *)
Definition fresh_ref (n : nat) (v : value) : Prop :=
  exists l, v = VRef l /\ (n <= l)%nat.

(** A computation that, started on a heap of at least [n] objects, leaves
    the store and the first [n] objects as they are, whether it returns or
    throws, and never shrinks the heap; what it returns satisfies [Q]. *)
Definition above (n : nat) {A} (Q : A -> Prop) (c : M A) : Prop :=
  forall st, (n <= length (heap st))%nat ->
    store (snd (c st)) = store st /\
    take n (heap (snd (c st))) = take n (heap st) /\
    (length (heap st) <= length (heap (snd (c st))))%nat /\
    (forall a, fst (c st) = Ok a -> Q a).

(** An object that refers to itself, after the classes. *)
Definition self_cycle : state :=
  State (class_heap ++ [Object KObject [("name", data_property (VStr "loop"));
                                        ("self", data_property (VRef 9%nat))] None]) ∅.

(** [Base.prototype.foo] decorated with the spec [1]. *)
Definition base_decorated_1 : state :=
  state_after (decorate stack (K_factory (VNum 1)) Base_prototype (Some "foo")
                 MethodDescriptor) classes_declared.

(** A factory of the same key that does not inherit. *)
Definition K_factory_no_inherit (sp : value) : factory :=
  Factory MethodDecoratorFactory "K" sp (Options Absent (Given false) (Given true))
          "MethodDecorator".

(** A factory of the base class, as its constructor builds it. *)
Definition base_factory (sp : value) : factory :=
  Factory DecoratorFactory "K" sp (Options Absent (Given true) (Given true)) "Decorator".

(** A number or a boolean. *)
Definition number_or_boolean (v : value) : bool :=
  match v with
  | VNum _ | VBool _ => true
  | _ => false
  end.

(* ===================================================================== *)
(** * Properties *)
(* ===================================================================== *)

(** ** The monad *)

Lemma bind_Ok {A B} (c : M A) (k : A -> M B) st b st' :
  bind c k st = (Ok b, st') ->
  exists a st1, c st = (Ok a, st1) /\ k a st1 = (Ok b, st').
Proof.
  unfold bind. destruct (c st) as [[a|e] st1]; intros H.
  - exists a, st1. split; [reflexivity | exact H].
  - discriminate H.
Qed.

Lemma bind_Throw {A B} (c : M A) (k : A -> M B) st e st' :
  bind c k st = (Throw e, st') ->
  c st = (Throw e, st') \/
  exists a st1, c st = (Ok a, st1) /\ k a st1 = (Throw e, st').
Proof.
  unfold bind. destruct (c st) as [[a|e0] st1]; intros H.
  - right. exists a, st1. split; [reflexivity | exact H].
  - left. injection H as -> ->. reflexivity.
Qed.

(** Split a successful run of a sequence into its steps. *)
Tactic Notation "step" hyp(H) "as" ident(a) ident(s) ident(H1) :=
  apply bind_Ok in H; destruct H as (a & s & H1 & H).

Ltac ok_inv H :=
  match type of H with
  | bind _ _ _ = (Ok _, _) =>
      let a := fresh "a" in
      let s := fresh "s" in
      let H1 := fresh "Hstep" in
      apply bind_Ok in H; destruct H as (a & s & H1 & H)
  | ret _ _ = (Ok _, _) => unfold ret in H; injection H as <- <-
  end.

(** ** Own properties *)

Lemma own_put_eq k p ps : own k (put k p ps) = Some p.
Proof.
  induction ps as [|[k' p'] ps IH]; simpl.
  - destruct (decide (k = k)); [reflexivity | contradiction].
  - destruct (decide (k = k')) as [->|Hne]; simpl.
    + destruct (decide (k' = k')); [reflexivity | contradiction].
    + destruct (decide (k = k')); [contradiction | exact IH].
Qed.

Lemma own_put_ne k k' p ps : k <> k' -> own k' (put k p ps) = own k' ps.
Proof.
  intros Hne. induction ps as [|[k0 p0] ps IH]; simpl.
  - destruct (decide (k' = k)); [congruence | reflexivity].
  - destruct (decide (k = k0)) as [->|Hk]; simpl.
    + destruct (decide (k' = k0)); [congruence | reflexivity].
    + destruct (decide (k' = k0)); [reflexivity | exact IH].
Qed.

(** ** One property written on the heap *)

Lemma write_property_written l o k p st st' :
  heap st !! l = Some o ->
  write_property l o k p st = (Ok tt, st') ->
  property_written st st' l k p.
Proof.
  intros Hl H. unfold write_property in H. injection H as <-.
  exists o. split; [exact Hl | reflexivity].
Qed.

Section Written.
Context (st st' : state) (l : loc) (k : string) (p : property).
Hypothesis W : property_written st st' l k p.

Lemma written_store : store st' = store st.
Proof. destruct W as (o & _ & ->). reflexivity. Qed.

Lemma written_length : length (heap st') = length (heap st).
Proof. destruct W as (o & _ & ->). simpl. apply length_insert. Qed.

Lemma written_other l' : l' <> l -> heap st' !! l' = heap st !! l'.
Proof.
  destruct W as (o & _ & ->). simpl. intros Hne.
  apply list_lookup_insert_ne. congruence.
Qed.

Lemma written_same :
  exists o, heap st !! l = Some o /\
            heap st' !! l = Some (with_props o (put k p (o_props o))).
Proof.
  destruct W as (o & Hl & ->). exists o. split; [exact Hl|]. simpl.
  apply list_lookup_insert_eq. eapply lookup_lt_Some; eauto.
Qed.

(** Kinds and prototypes never change. *)
Lemma written_shape l' :
  (o_kind <$> heap st' !! l') = (o_kind <$> heap st !! l') /\
  (o_proto <$> heap st' !! l') = (o_proto <$> heap st !! l').
Proof.
  destruct (decide (l' = l)) as [->|Hne].
  - destruct written_same as (o & H1 & H2). rewrite H1, H2. split; reflexivity.
  - rewrite written_other by exact Hne. split; reflexivity.
Qed.

Lemma written_own_eq : own_property st' l k = Some p.
Proof.
  unfold own_property. destruct written_same as (o & _ & ->). simpl.
  apply own_put_eq.
Qed.

Lemma written_own_ne l' k' :
  (l', k') <> (l, k) -> own_property st' l' k' = own_property st l' k'.
Proof.
  intros Hne. unfold own_property.
  destruct (decide (l' = l)) as [->|Hl].
  - destruct written_same as (o & -> & ->). simpl.
    apply own_put_ne. congruence.
  - rewrite written_other by exact Hl. reflexivity.
Qed.

Lemma written_typeof v : typeof (heap st') v = typeof (heap st) v.
Proof.
  destruct v as [| | | | |l']; try reflexivity. simpl.
  pose proof (proj1 (written_shape l')) as Hk.
  destruct (heap st' !! l') as [[k1 ps1 pr1]|], (heap st !! l') as [[k2 ps2 pr2]|];
    simpl in Hk; try discriminate; [|reflexivity].
  injection Hk as ->. reflexivity.
Qed.

Lemma written_isArray v : isArray (heap st') v = isArray (heap st) v.
Proof.
  destruct v as [| | | | |l']; try reflexivity. simpl.
  pose proof (proj1 (written_shape l')) as Hk.
  destruct (heap st' !! l') as [[k1 ps1 pr1]|], (heap st !! l') as [[k2 ps2 pr2]|];
    simpl in Hk; try discriminate; [|reflexivity].
  injection Hk as ->. reflexivity.
Qed.
End Written.

(** ** Heap operations grow the state *)

Lemma grows_refl st : grows st st.
Proof. split; [reflexivity | intros l o H; exists o; auto]. Qed.

Lemma grows_trans st1 st2 st3 : grows st1 st2 -> grows st2 st3 -> grows st1 st3.
Proof.
  intros [S1 H1] [S2 H2]. split; [congruence|].
  intros l o Hl. destruct (H1 l o Hl) as (o1 & Hl1 & Hk1 & Hp1).
  destruct (H2 l o1 Hl1) as (o2 & Hl2 & Hk2 & Hp2).
  exists o2. repeat split; congruence.
Qed.

Lemma grows_typeof st st' l :
  grows st st' -> typeof (heap st) (VRef l) <> TUndefined ->
  typeof (heap st') (VRef l) = typeof (heap st) (VRef l).
Proof.
  intros [_ H] Hlive. simpl in *.
  destruct (heap st !! l) as [o|] eqn:Hl; [|contradiction].
  destruct (H l o Hl) as (o' & -> & Hk & _).
  destruct o as [k ps pr], o' as [k' ps' pr']. simpl in Hk. subst k'. reflexivity.
Qed.

Lemma grows_object_valued st st' v :
  grows st st' -> object_valued st v -> object_valued st' v.
Proof.
  intros G [Ht Hn]. split; [|exact Hn].
  destruct v as [| | | | |l]; try exact Ht.
  rewrite (grows_typeof st st' l G); [exact Ht | rewrite Ht; discriminate].
Qed.

Lemma grows_proto st st' l o :
  grows st st' -> heap st !! l = Some o ->
  (o_proto <$> heap st' !! l) = Some (o_proto o).
Proof.
  intros [_ H] Hl. destruct (H l o Hl) as (o' & -> & _ & Hp). simpl. congruence.
Qed.

Lemma written_grows st st' l k p : property_written st st' l k p -> grows st st'.
Proof.
  intros W. split; [eapply written_store; eauto|].
  intros l' o' Hl'. destruct (decide (l' = l)) as [->|Hne].
  - destruct (written_same _ _ _ _ _ W) as (o & Ho & Ho').
    rewrite Ho in Hl'. injection Hl' as <-. eexists. split; [exact Ho'|]. auto.
  - exists o'. rewrite (written_other _ _ _ _ _ W) by exact Hne. auto.
Qed.

Lemma alloc_Ok o st : alloc o st = (Ok (VRef (length (heap st))), State (heap st ++ [o]) (store st)).
Proof. reflexivity. Qed.

Lemma alloc_grows o st v st' : alloc o st = (Ok v, st') -> grows st st'.
Proof.
  unfold alloc. intros H. injection H as <- <-. split; [reflexivity|].
  intros l o' Hl. exists o'. simpl. rewrite lookup_app_l_Some with (x := o'); auto.
Qed.

Lemma heap_op_ret {A} (a : A) : heap_op (ret a).
Proof. intros st. apply grows_refl. Qed.

Lemma heap_op_bind {A B} (c : M A) (k : A -> M B) :
  heap_op c -> (forall a, heap_op (k a)) -> heap_op (bind c k).
Proof.
  intros Hc Hk st. unfold bind. specialize (Hc st).
  destruct (c st) as [[a|e] st1]; [|exact Hc].
  specialize (Hk a st1). destruct (k a st1) as [[b|e] st2]; [|exact Hk].
  eapply grows_trans; eauto.
Qed.

Lemma heap_op_throw {A} e : runtime_error e -> heap_op (@throw A e).
Proof. intros He st. exact He. Qed.

Lemma heap_op_read {A} (f : state -> A) : heap_op (fun st => (Ok (f st), st)).
Proof. intros st. apply grows_refl. Qed.

Lemma heap_op_alloc o : heap_op (alloc o).
Proof. intros st. eapply alloc_grows. reflexivity. Qed.

Lemma heap_op_Typeof v : heap_op (Typeof v).
Proof. apply heap_op_read. Qed.

Lemma heap_op_IsArray v : heap_op (IsArray v).
Proof. apply heap_op_read. Qed.

Lemma heap_op_kind_of v : heap_op (kind_of v).
Proof. intros st. destruct v; apply grows_refl. Qed.

Lemma heap_op_getOwnPropertyNames v : heap_op (getOwnPropertyNames v).
Proof.
  intros st. unfold getOwnPropertyNames.
  destruct v; try apply grows_refl. destruct (heap st !! l); apply grows_refl.
Qed.

Lemma heap_op_create_like v : heap_op (create_like v).
Proof.
  intros st. unfold create_like.
  destruct v; try (eapply alloc_grows; reflexivity).
  destruct (heap st !! l); eapply alloc_grows; reflexivity.
Qed.

Lemma heap_op_Get v k : heap_op (Get v k).
Proof.
  intros st. unfold Get. destruct (is_nullish v); [exact I | apply grows_refl].
Qed.

Lemma heap_op_write_property l o k p st :
  heap st !! l = Some o ->
  grows st (snd (write_property l o k p st)).
Proof.
  intros Hl. eapply written_grows. eapply write_property_written; eauto.
Qed.

Lemma heap_op_Set v k x : heap_op (Set_ v k x).
Proof.
  intros st. unfold Set_.
  destruct v as [| | | | |l]; try exact I.
  destruct (heap st !! l) as [o|] eqn:Hl; [|exact I].
  destruct (own k (o_props o)) as [p|].
  - destruct (p_writable p); [|exact I].
    apply (heap_op_write_property l o k _ st Hl).
  - destruct (find_property (heap st) l k) as [p|].
    + destruct (p_writable p); [|exact I].
      apply (heap_op_write_property l o k _ st Hl).
    + apply (heap_op_write_property l o k _ st Hl).
Qed.

Lemma heap_op_defineProperty v k d : heap_op (defineProperty v k d).
Proof.
  intros st. unfold defineProperty.
  destruct v as [| | | | |l]; try exact I.
  destruct (heap st !! l) as [o|] eqn:Hl; [|exact I].
  destruct (apply_descriptor (own k (o_props o)) d) as [p|]; [|exact I].
  apply (heap_op_write_property l o k _ st Hl).
Qed.

Lemma heap_op_mapM {A B} (f : A -> M B) xs :
  (forall x, heap_op (f x)) -> heap_op (mapM f xs).
Proof.
  intros Hf. induction xs as [|x xs IH]; simpl.
  - apply heap_op_ret.
  - apply heap_op_bind; [apply Hf|]. intros y.
    apply heap_op_bind; [exact IH|]. intros ys. apply heap_op_ret.
Qed.

Lemma heap_op_reduce {A B} (f : B -> A -> M B) xs :
  (forall b x, heap_op (f b x)) -> forall init, heap_op (reduce f xs init).
Proof.
  intros Hf. induction xs as [|x xs IH]; intros init; simpl.
  - apply heap_op_ret.
  - apply heap_op_bind; [apply Hf|]. intros acc. apply IH.
Qed.

Create HintDb heap_ops.
#[local] Hint Resolve heap_op_ret heap_op_alloc heap_op_Typeof heap_op_IsArray
  heap_op_kind_of heap_op_getOwnPropertyNames heap_op_create_like heap_op_Get
  heap_op_Set heap_op_defineProperty heap_op_read : heap_ops.

(** [cloneDeep] only allocates, and writes into what it allocated. *)
Lemma heap_op_cloneDeep depth : forall source, heap_op (cloneDeep depth source).
Proof.
  induction depth as [|d IH]; intros source; simpl.
  - apply heap_op_throw. exact I.
  - apply heap_op_bind; [auto with heap_ops|]. intros t.
    destruct (negb (bool_decide (t = TObject)) || bool_decide (source = VNull));
      [auto with heap_ops|].
    apply heap_op_bind; [auto with heap_ops|].
    assert (heap_op (names <- getOwnPropertyNames source ;;
                     o0 <- create_like source ;;
                     _ <- reduce (fun o key =>
                                    x <- Get source key ;;
                                    c <- cloneDeep d x ;;
                                    Set_ o key c ;;
                                    ret o) names o0 ;;
                     ret source)) as Hobject.
    { apply heap_op_bind; [auto with heap_ops|]. intros names.
      apply heap_op_bind; [auto with heap_ops|]. intros o0.
      apply heap_op_bind; [|auto with heap_ops].
      apply heap_op_reduce. intros o key.
      apply heap_op_bind; [auto with heap_ops|]. intros x.
      apply heap_op_bind; [apply IH|]. intros c.
      apply heap_op_bind; auto with heap_ops. }
    intros [[ | items | time | ]|]; try exact Hobject.
    + apply heap_op_bind; [apply heap_op_mapM; exact IH|]. intros items'.
      auto with heap_ops.
    + auto with heap_ops.
Qed.

Lemma heap_op_Object_assign target source : heap_op (Object_assign target source).
Proof.
  unfold Object_assign.
  apply heap_op_bind; [apply heap_op_read|]. intros es.
  apply heap_op_bind; [|auto with heap_ops].
  apply heap_op_reduce. auto with heap_ops.
Qed.

Lemma heap_op_inherit this inherited : heap_op (inherit this inherited).
Proof.
  unfold inherit.
  destruct (negb (allowInheritance this)); [auto with heap_ops|].
  destruct (is_nullish inherited); [auto with heap_ops|].
  destruct (is_nullish (spec this)); [auto with heap_ops|].
  apply heap_op_bind; [auto with heap_ops|]. intros t.
  destruct (negb (bool_decide (t = TObject))); [auto with heap_ops|].
  apply heap_op_bind; [auto with heap_ops|]. intros a.
  apply heap_op_bind; [auto with heap_ops|]. intros b.
  destruct (a || b); [auto with heap_ops | apply heap_op_Object_assign].
Qed.

Lemma heap_op_withTarget sp target : heap_op (withTarget sp target).
Proof.
  unfold withTarget. apply heap_op_bind; [auto with heap_ops|]. intros t.
  destruct (bool_decide (t = TObject) && negb (is_nullish sp)); [|auto with heap_ops].
  apply heap_op_bind; auto with heap_ops.
Qed.

Lemma heap_op_or_empty_object v : heap_op (or_empty_object v).
Proof. unfold or_empty_object. destruct (bool_decide (v = VUndefined)); auto with heap_ops. Qed.

Lemma heap_op_mergeWithInherited this meta target member site :
  class_of this = MethodDecoratorFactory ->
  heap_op (mergeWithInherited this meta target member site).
Proof.
  intros Hc. unfold mergeWithInherited. rewrite Hc.
  unfold MethodDecoratorFactory_mergeWithInherited.
  apply heap_op_bind; [apply heap_op_or_empty_object|]. intros m.
  apply heap_op_bind; [auto with heap_ops|]. intros existing.
  apply heap_op_bind; [apply heap_op_inherit|]. intros merged.
  apply heap_op_bind; [apply heap_op_withTarget|]. intros tagged.
  apply heap_op_bind; auto with heap_ops.
Qed.

(** ** Reading and writing properties *)

Lemma find_property_own st l k p :
  own_property st l k = Some p -> find_property (heap st) l k = Some p.
Proof.
  unfold own_property, find_property. simpl.
  destruct (heap st !! l) as [o|]; simpl; [|discriminate].
  intros ->. reflexivity.
Qed.

Lemma prop_value_own st l k x :
  own_value st l k = Some x -> prop_value (heap st) (VRef l) k = x.
Proof.
  unfold own_value. destruct (own_property st l k) as [p|] eqn:Hp; simpl; [|discriminate].
  intros H. injection H as <-. unfold prop_value.
  rewrite (find_property_own _ _ _ _ Hp). reflexivity.
Qed.

Lemma Get_ref l k st : Get (VRef l) k st = (Ok (prop_value (heap st) (VRef l) k), st).
Proof. reflexivity. Qed.

Lemma Get_Ok v k st x st' :
  Get v k st = (Ok x, st') -> st' = st /\ x = prop_value (heap st) v k.
Proof.
  unfold Get. destruct (is_nullish v); [discriminate|].
  intros H. injection H as <- <-. auto.
Qed.

Lemma Set_Ok v k x st u st' :
  Set_ v k x st = (Ok u, st') ->
  exists l p, v = VRef l /\ p_value p = x /\ p_writable p = true /\
              property_written st st' l k p.
Proof.
  unfold Set_. destruct v as [| | | | |l]; try discriminate.
  destruct (heap st !! l) as [o|] eqn:Hl; [|discriminate].
  destruct (own k (o_props o)) as [p|].
  - destruct (p_writable p) eqn:Hw; [|discriminate]. intros H.
    exists l, (set_value p x). repeat split; auto.
    destruct u. eapply write_property_written; eauto.
  - assert (forall q, q = data_property x ->
              write_property l o k q st = (Ok u, st') ->
              exists l0 p, VRef l = VRef l0 /\ p_value p = x /\ p_writable p = true /\
                           property_written st st' l0 k p) as Hnew.
    { intros q -> H. exists l, (data_property x). repeat split; auto.
      destruct u. eapply write_property_written; eauto. }
    destruct (find_property (heap st) l k) as [p|].
    + destruct (p_writable p); [|discriminate]. apply Hnew. reflexivity.
    + apply Hnew. reflexivity.
Qed.

Lemma defineProperty_Ok v k d st u st' :
  defineProperty v k d st = (Ok u, st') ->
  exists l o p, v = VRef l /\ heap st !! l = Some o /\
                apply_descriptor (own k (o_props o)) d = Some p /\
                property_written st st' l k p.
Proof.
  unfold defineProperty. destruct v as [| | | | |l]; try discriminate.
  destruct (heap st !! l) as [o|] eqn:Hl; [|discriminate].
  destruct (apply_descriptor (own k (o_props o)) d) as [p|] eqn:Hp; [|discriminate].
  intros H. exists l, o, p. repeat split; auto.
  destruct u. eapply write_property_written; eauto.
Qed.

Lemma apply_descriptor_value current d x p :
  d_value d = Some x -> apply_descriptor current d = Some p -> p_value p = x.
Proof.
  intros Hx. unfold apply_descriptor. destruct current as [p0|].
  - match goal with |- (if ?c then _ else _) = _ -> _ => destruct c end;
      [discriminate|]. intros H. injection H as <-. simpl. rewrite Hx. reflexivity.
  - intros H. injection H as <-. simpl. rewrite Hx. reflexivity.
Qed.

(** A tag that is already there, read-only and fixed, cannot be moved to
    another target. *)
Lemma apply_descriptor_rejected p target :
  p_configurable p = false -> p_writable p = false -> p_value p <> VRef target ->
  apply_descriptor (Some p)
    (Descriptor (Some (VRef target)) None (Some false) (Some false)) = None.
Proof.
  intros Hc Hw Hv. unfold apply_descriptor. simpl. rewrite Hc, Hw. simpl.
  rewrite (bool_decide_eq_false_2 (VRef target = p_value p)) by congruence.
  simpl. rewrite orb_true_r. reflexivity.
Qed.

Lemma object_valued_ref st v : object_valued st v -> exists l, v = VRef l.
Proof.
  intros [Ht Hn]. destruct v; try discriminate. eauto.
Qed.

Lemma withTarget_object st sp target :
  object_valued st sp ->
  withTarget sp target st =
  (defineProperty sp TARGET (Descriptor (Some (VRef target)) None (Some false) (Some false)) ;;
   ret sp) st.
Proof.
  intros [Ht Hn]. unfold withTarget at 1. unfold bind at 1, Typeof.
  rewrite Ht, Hn. reflexivity.
Qed.

Lemma withTarget_not_object st sp target :
  primitive sp = true -> withTarget sp target st = (Ok sp, st).
Proof. destruct sp; try discriminate; reflexivity. Qed.

Lemma withTarget_Ok st sp target v st' :
  object_valued st sp ->
  withTarget sp target st = (Ok v, st') ->
  exists r p, sp = VRef r /\ v = sp /\ p_value p = VRef target /\
              property_written st st' r TARGET p.
Proof.
  intros Hov H. rewrite withTarget_object in H by exact Hov.
  ok_inv H. ok_inv H.
  apply defineProperty_Ok in Hstep as (l & o & p & -> & Hl & Hp & W).
  exists l, p. repeat split; auto.
  eapply apply_descriptor_value; [|exact Hp]. reflexivity.
Qed.

(** The tail of both merge methods: tag the value, store it in the slot. *)
Lemma tagged_then_set X target Mv k sC tagged sD u sE :
  object_valued sC X -> k <> TARGET ->
  withTarget X target sC = (Ok tagged, sD) ->
  Set_ Mv k tagged sD = (Ok u, sE) ->
  exists m r, Mv = VRef m /\ X = VRef r /\
    own_value sE m k = Some (VRef r) /\
    own_value sE r TARGET = Some (VRef target) /\
    typeof (heap sE) (VRef r) = TObject.
Proof.
  intros Hov Hk HW HS.
  destruct (withTarget_Ok _ _ _ _ _ Hov HW) as (r & p & -> & -> & Hp & W1).
  destruct (Set_Ok _ _ _ _ _ _ HS) as (m & q & -> & Hq & _ & W2).
  exists m, r. repeat split.
  - unfold own_value. rewrite (written_own_eq _ _ _ _ _ W2). simpl. congruence.
  - unfold own_value. rewrite (written_own_ne _ _ _ _ _ W2) by congruence.
    rewrite (written_own_eq _ _ _ _ _ W1). simpl. congruence.
  - rewrite (written_typeof _ _ _ _ _ W2), (written_typeof _ _ _ _ _ W1).
    apply Hov.
Qed.

Lemma heap_op_Ok {A} (c : M A) st a st' :
  heap_op c -> c st = (Ok a, st') -> grows st st'.
Proof. intros H E. specialize (H st). rewrite E in H. exact H. Qed.

Lemma heap_op_Throw {A} (c : M A) st e st' :
  heap_op c -> c st = (Throw e, st') -> runtime_error e.
Proof. intros H E. specialize (H st). rewrite E in H. exact H. Qed.

Lemma Object_assign_Ok target source st v st' :
  Object_assign target source st = (Ok v, st') -> v = target.
Proof.
  unfold Object_assign. intros H. ok_inv H. ok_inv H. ok_inv H. reflexivity.
Qed.

(** What [inherit] returns for an object-valued spec is an object. *)
Lemma inherit_object_valued this existing st merged st' :
  object_valued st (spec this) ->
  inherit this existing st = (Ok merged, st') ->
  object_valued st' merged.
Proof.
  intros Hov H. pose proof (heap_op_Ok _ _ _ _ (heap_op_inherit this existing) H) as G.
  unfold inherit in H.
  destruct (negb (allowInheritance this)).
  { ok_inv H. exact Hov. }
  destruct (is_nullish existing) eqn:Hnull.
  { ok_inv H. exact Hov. }
  destruct (is_nullish (spec this)) eqn:Hs.
  { destruct Hov as [_ Hn]. congruence. }
  ok_inv H. unfold Typeof in Hstep. injection Hstep as <- <-.
  destruct (bool_decide (typeof (heap st) existing = TObject)) eqn:Ht; simpl in H.
  2:{ ok_inv H. exact Hov. }
  apply bool_decide_eq_true_1 in Ht.
  ok_inv H. ok_inv H. unfold IsArray in *.
  injection Hstep as <- <-. injection Hstep0 as <- <-.
  destruct (isArray (heap st) existing || isArray (heap st) (spec this)).
  { ok_inv H. exact Hov. }
  pose proof (Object_assign_Ok _ _ _ _ _ H) as ->.
  apply (grows_object_valued st st'); [exact G | split; assumption].
Qed.

Lemma or_empty_object_Ok v st m st' :
  or_empty_object v st = (Ok m, st') ->
  grows st st' /\ (v <> VUndefined -> m = v /\ st' = st).
Proof.
  intros H. split.
  - eapply heap_op_Ok; [apply heap_op_or_empty_object | exact H].
  - intros Hv. unfold or_empty_object in H.
    rewrite bool_decide_eq_false_2 in H by exact Hv. ok_inv H. auto.
Qed.

Lemma getTarget_tagged st r target :
  typeof (heap st) (VRef r) = TObject ->
  own_value st r TARGET = Some (VRef target) ->
  getTarget (VRef r) st = (Ok (VRef target), st).
Proof.
  intros Ht Hv. unfold getTarget, bind, Typeof. rewrite Ht. simpl.
  rewrite Get_ref, (prop_value_own _ _ _ _ Hv). reflexivity.
Qed.

Lemma getTarget_primitive st v :
  primitive v = true -> getTarget v st = (Ok VUndefined, st).
Proof. destruct v; try discriminate; reflexivity. Qed.

(** ** The two paths of [decorate] *)

Section Decorate.
Context (depth : nat) (this : factory) (target : loc)
        (member : option string) (descriptorOrIndex : site).
Hypothesis Hclass : class_of this = MethodDecoratorFactory.

Let k := property_key member.

(** A decoration that returns with an object-valued spec leaves the slot
    tagged with the target. *)
Lemma decorate_Ok_tagged st u st1 :
  object_valued st (spec this) ->
  k <> TARGET ->
  decorate depth this target member descriptorOrIndex st = (Ok u, st1) ->
  site_tagged st1 (key this) target k.
Proof.
  intros Hov Hk H. unfold decorate in H.
  step H as own0 s0 Hown. unfold getOwnMetadata in Hown. injection Hown as <- <-.
  step H as meta s1 Hmerge. unfold defineMetadata in H. injection H as <- <-.
  assert (exists m r, meta = VRef m /\
            own_value s1 m k = Some (VRef r) /\
            own_value s1 r TARGET = Some (VRef target) /\
            typeof (heap s1) (VRef r) = TObject) as (m & r & -> & Hm & Hr & Ht).
  { destruct (negb (truthy (from_option VUndefined (store st !! (key this, target))))
              && allowInheritance this).
    - (* inherited metadata *)
      step Hmerge as inh sa Hget. unfold getMetadata in Hget. injection Hget as <- <-.
      step Hmerge as cloned sb Hclone.
      pose proof (heap_op_Ok _ _ _ _ (heap_op_cloneDeep _ _) Hclone) as G1.
      unfold mergeWithInherited in Hmerge. rewrite Hclass in Hmerge.
      unfold MethodDecoratorFactory_mergeWithInherited in Hmerge.
      step Hmerge as mv sc Hdef. destruct (or_empty_object_Ok _ _ _ _ Hdef) as [G2 _].
      step Hmerge as existing sd Hex. apply Get_Ok in Hex as [-> ->].
      step Hmerge as merged se Hinh.
      assert (object_valued se merged) as Hov'.
      { eapply inherit_object_valued; [|exact Hinh].
        eapply grows_object_valued; [|exact Hov]. eapply grows_trans; eauto. }
      step Hmerge as tagged sf Htag. step Hmerge as u0 sg Hset. ok_inv Hmerge.
      destruct (tagged_then_set _ _ _ _ _ _ _ _ _ Hov' Hk Htag Hset)
        as (m & r & -> & -> & ? & ? & ?).
      exists m, r. auto.
    - (* own metadata *)
      unfold mergeWithOwn in Hmerge. rewrite Hclass in Hmerge.
      unfold MethodDecoratorFactory_mergeWithOwn in Hmerge.
      step Hmerge as mv sc Hdef. destruct (or_empty_object_Ok _ _ _ _ Hdef) as [G2 _].
      step Hmerge as existing sd Hex. apply Get_Ok in Hex as [-> ->].
      step Hmerge as origin se Horigin.
      assert (grows sc se) as G3.
      { eapply heap_op_Ok; [|exact Horigin]. unfold getTarget.
        apply heap_op_bind; [auto with heap_ops|]. intros t.
        destruct (bool_decide (t = TObject) && negb _); auto with heap_ops. }
      destruct (bool_decide (origin = VRef target)).
      { step Hmerge as e sf He. discriminate Hmerge. }
      assert (object_valued se (spec this)) as Hov'.
      { eapply grows_object_valued; [|exact Hov]. eapply grows_trans; eauto. }
      step Hmerge as tagged sf Htag. step Hmerge as u0 sg Hset. ok_inv Hmerge.
      destruct (tagged_then_set _ _ _ _ _ _ _ _ _ Hov' Hk Htag Hset)
        as (m & r & -> & _ & ? & ? & ?).
      exists m, r. auto. }
  exists m, r. unfold own_value, own_property in *. cbn [store heap].
  rewrite lookup_insert_eq. auto.
Qed.

(** On a tagged slot every further direct decoration is a duplicate. *)
Lemma decorate_tagged_duplicate st name :
  site_tagged st (key this) target k ->
  getTargetName target member descriptorOrIndex st = (Ok name, st) ->
  decorate depth this target member descriptorOrIndex st =
  (Throw (DuplicateDecorationError
            ("duplicate " +:+ decoratorName this +:+ " on " +:+ name)), st).
Proof.
  intros (m & r & Hs & Hm & Hr & Ht) Hname.
  unfold decorate. unfold bind at 1, getOwnMetadata. rewrite Hs. simpl.
  unfold bind at 1. unfold mergeWithOwn. rewrite Hclass.
  unfold MethodDecoratorFactory_mergeWithOwn.
  unfold bind at 1. unfold or_empty_object. simpl. unfold ret at 1.
  unfold bind at 1. rewrite Get_ref. fold k. rewrite (prop_value_own _ _ _ _ Hm).
  unfold bind at 1. rewrite (getTarget_tagged _ _ _ Ht Hr).
  rewrite bool_decide_eq_true_2 by reflexivity.
  unfold bind at 1, new_DuplicateDecorationError. unfold bind at 1.
  rewrite Hname. reflexivity.
Qed.
End Decorate.

(** ** Decorating a target that has no metadata under the key *)

Lemma effective_undefined_own (n : nat) (h : list object) (s : gmap (string * nat) value)
    (key : string) (target : nat) :
  effective (S n) h s key target = VUndefined ->
  from_option VUndefined (s !! (key, target)) = VUndefined.
Proof. simpl. destruct (s !! (key, target)); simpl; auto. Qed.

Lemma cloneDeep_not_object depth source st :
  (0 < depth)%nat -> typeof (heap st) source <> TObject ->
  cloneDeep depth source st = (Ok source, st).
Proof.
  intros Hd Ht. destruct depth as [|d]; [lia|]. simpl.
  unfold bind at 1, Typeof. rewrite bool_decide_eq_false_2 by exact Ht. reflexivity.
Qed.

Lemma lookup_fresh (h : list object) o : (h ++ [o]) !! length h = Some o.
Proof. rewrite lookup_app_r by lia. rewrite Nat.sub_diag. reflexivity. Qed.

Lemma prop_value_fresh (h : list object) k :
  prop_value (h ++ [Object KObject [] None]) (VRef (length h)) k = VUndefined.
Proof.
  unfold prop_value, find_property. simpl. rewrite lookup_fresh. reflexivity.
Qed.

Lemma inherit_nothing this st : inherit this VUndefined st = (Ok (spec this), st).
Proof. unfold inherit. destruct (negb (allowInheritance this)); reflexivity. Qed.

Section Fresh.
Context (depth : nat) (this : factory) (target : loc)
        (member : option string) (descriptorOrIndex : site) (st : state).
Hypothesis Hclass : class_of this = MethodDecoratorFactory.
Hypothesis Hdepth : (0 < depth)%nat.
Hypothesis Hfresh :
  effective (S (length (heap st))) (heap st) (store st) (key this) target = VUndefined.

Let k := property_key member.
Let m := length (heap st).
Let sa := State (heap st ++ [Object KObject [] None]) (store st).

(** Both branches come down to: a new map, the tagged spec in its slot. *)
Lemma decorate_fresh :
  decorate depth this target member descriptorOrIndex st =
  bind (tagged <- withTarget (spec this) target ;;
        Set_ (VRef m) k tagged ;;
        ret (VRef m))
       (fun meta => defineMetadata (key this) meta target) sa.
Proof.
  unfold decorate. unfold bind at 1, getOwnMetadata.
  rewrite (effective_undefined_own _ _ _ _ _ Hfresh). simpl.
  destruct (allowInheritance this) eqn:Hallow.
  - unfold bind at 1. unfold bind at 1, getMetadata. rewrite Hfresh.
    unfold bind at 1. rewrite cloneDeep_not_object by (auto; discriminate).
    unfold mergeWithInherited. rewrite Hclass.
    unfold MethodDecoratorFactory_mergeWithInherited.
    unfold bind at 1. unfold or_empty_object.
    rewrite bool_decide_eq_true_2 by reflexivity. rewrite alloc_Ok.
    unfold bind at 1. rewrite Get_ref. fold sa. simpl heap.
    rewrite prop_value_fresh. unfold bind at 1. rewrite inherit_nothing.
    reflexivity.
  - unfold bind at 1. unfold mergeWithOwn. rewrite Hclass.
    unfold MethodDecoratorFactory_mergeWithOwn.
    unfold bind at 1. unfold or_empty_object.
    rewrite bool_decide_eq_true_2 by reflexivity. rewrite alloc_Ok.
    unfold bind at 1. rewrite Get_ref. fold sa. simpl heap.
    rewrite prop_value_fresh. unfold bind at 1. simpl. reflexivity.
Qed.

(** When it returns, the slot holds the spec and nothing else changed in
    the reflection store. *)
Lemma decorate_fresh_Ok u st1 :
  decorate depth this target member descriptorOrIndex st = (Ok u, st1) ->
  grows st (State (heap st1) (store st)) /\
  store st1 = <[(key this, target) := VRef m]> (store st) /\
  own_value st1 m k = Some (spec this).
Proof.
  rewrite decorate_fresh. intros H.
  step H as meta s1 Hm. unfold defineMetadata in H. injection H as <- <-.
  step Hm as tagged s2 Htag. step Hm as u0 s3 Hset. ok_inv Hm.
  assert (grows st sa) as G0 by (eapply alloc_grows; apply alloc_Ok).
  pose proof (heap_op_Ok _ _ _ _ (heap_op_withTarget _ _) Htag) as G1.
  pose proof (heap_op_Ok _ _ _ _ (heap_op_Set _ _ _) Hset) as G2.
  assert (tagged = spec this) as ->.
  { unfold withTarget in Htag. step Htag as t s4 Ht.
    destruct (bool_decide (t = TObject) && negb (is_nullish (spec this))).
    - step Htag as u1 s5 Hd. ok_inv Htag. reflexivity.
    - ok_inv Htag. reflexivity. }
  destruct (Set_Ok _ _ _ _ _ _ Hset) as (l & p & Hl & Hp & _ & W).
  injection Hl as <-.
  pose proof (grows_trans _ _ _ G0 (grows_trans _ _ _ G1 G2)) as G.
  split; [|split].
  - destruct G as [Gs Gh]. split; [reflexivity | exact Gh].
  - cbn [store]. rewrite (grows_store _ _ G). reflexivity.
  - unfold own_value, own_property. cbn [heap].
    pose proof (written_own_eq _ _ _ _ _ W) as E. unfold own_property in E.
    rewrite E. simpl. congruence.
Qed.
End Fresh.

(** ** The inspector *)

Lemma effective_empty (n : nat) (h : list object) (key : string) (target : nat) :
  effective n h ∅ key target = VUndefined.
Proof.
  revert target. induction n as [|n IH]; intros target; simpl; [reflexivity|].
  rewrite lookup_empty.
  destruct (o_proto <$> h !! target) as [[parent|]|]; auto.
Qed.

Lemma getAllMethodMetadata_pure key target options st :
  snd (getAllMethodMetadata key target options st) = st.
Proof. unfold getAllMethodMetadata. destruct (own_only options); reflexivity. Qed.

(** The inspector reads: whatever it returns, the state is the one it was
    given. *)
Lemma getMethodMetadata_pure key target methodName options st :
  snd (getMethodMetadata key target methodName options st) = st.
Proof.
  unfold getMethodMetadata, bind.
  pose proof (getAllMethodMetadata_pure key target options st) as H.
  destruct (getAllMethodMetadata key target options st) as [[all|e] st']; simpl in H;
    subst st'; [|reflexivity].
  unfold optional_member. destruct (is_nullish all) eqn:Hn; [reflexivity|].
  unfold Get. rewrite Hn. reflexivity.
Qed.

Lemma getMethodMetadata_own key target name st m x :
  store st !! (key, target) = Some (VRef m) ->
  own_value st m name = Some x ->
  getMethodMetadata key target (Some name) only_own st = (Ok x, st).
Proof.
  intros Hs Hx. unfold getMethodMetadata, getAllMethodMetadata, only_own. simpl.
  unfold bind, getOwnMetadata. rewrite Hs. simpl.
  unfold optional_member. simpl. rewrite Get_ref, (prop_value_own _ _ _ _ Hx).
  reflexivity.
Qed.

Lemma getMethodMetadata_effective_own key target name st m x :
  store st !! (key, target) = Some (VRef m) ->
  own_value st m name = Some x ->
  getMethodMetadata key target (Some name) None st = (Ok x, st).
Proof.
  intros Hs Hx. unfold getMethodMetadata, getAllMethodMetadata. simpl.
  unfold bind, getMetadata. simpl. rewrite Hs.
  unfold optional_member. simpl. rewrite Get_ref, (prop_value_own _ _ _ _ Hx).
  reflexivity.
Qed.

Lemma getMethodMetadata_inherited key sub base name st osub m x :
  store st !! (key, sub) = None ->
  heap st !! sub = Some osub -> o_proto osub = Some base ->
  store st !! (key, base) = Some (VRef m) ->
  own_value st m name = Some x ->
  getMethodMetadata key sub (Some name) None st = (Ok x, st).
Proof.
  intros Hsub Hl Hp Hs Hx. unfold getMethodMetadata, getAllMethodMetadata. simpl.
  unfold bind, getMetadata. simpl. rewrite Hsub, Hl. simpl. rewrite Hp.
  destruct (length (heap st)) as [|n] eqn:Hlen.
  { apply lookup_lt_Some in Hl. lia. }
  simpl. rewrite Hs.
  unfold optional_member. simpl. rewrite Get_ref, (prop_value_own _ _ _ _ Hx).
  reflexivity.
Qed.


(** ** Primitive specs carry no origin tag *)

Lemma Set_fresh (h : list object) (s : gmap (string * nat) value) k x :
  Set_ (VRef (length h)) k x (State (h ++ [Object KObject [] None]) s) =
  (Ok tt, State (<[length h := Object KObject [(k, data_property x)] None]>
                   (h ++ [Object KObject [] None])) s).
Proof.
  unfold Set_. cbn [heap]. rewrite lookup_fresh. cbn [o_props own].
  unfold find_property. cbn [lookup_chain]. rewrite lookup_fresh. reflexivity.
Qed.

Lemma decorate_fresh_primitive depth this target member site st :
  class_of this = MethodDecoratorFactory -> (0 < depth)%nat ->
  effective (S (length (heap st))) (heap st) (store st) (key this) target = VUndefined ->
  primitive (spec this) = true ->
  decorate depth this target member site st =
  (Ok tt,
   State (<[length (heap st) :=
              Object KObject [(property_key member, data_property (spec this))] None]>
            (heap st ++ [Object KObject [] None]))
         (<[(key this, target) := VRef (length (heap st))]> (store st))).
Proof.
  intros Hclass Hdepth Hfresh Hprim.
  rewrite decorate_fresh by assumption.
  unfold bind at 1. unfold bind at 1.
  rewrite withTarget_not_object by exact Hprim.
  unfold bind at 1. rewrite Set_fresh. reflexivity.
Qed.

Lemma decorate_own_primitive depth this target member site st m om p :
  class_of this = MethodDecoratorFactory ->
  store st !! (key this, target) = Some (VRef m) ->
  heap st !! m = Some om ->
  own (property_key member) (o_props om) = Some p ->
  p_writable p = true -> primitive (p_value p) = true ->
  primitive (spec this) = true ->
  decorate depth this target member site st =
  (Ok tt,
   State (<[m := with_props om (put (property_key member) (set_value p (spec this))
                                    (o_props om))]> (heap st))
         (<[(key this, target) := VRef m]> (store st))).
Proof.
  intros Hclass Hs Hm Hown Hw Hp Hprim.
  assert (own_value st m (property_key member) = Some (p_value p)) as Hv.
  { unfold own_value, own_property. rewrite Hm. simpl. rewrite Hown. reflexivity. }
  unfold decorate. unfold bind at 1, getOwnMetadata. rewrite Hs. simpl.
  unfold bind at 1. unfold mergeWithOwn. rewrite Hclass.
  unfold MethodDecoratorFactory_mergeWithOwn.
  unfold bind at 1. unfold or_empty_object. simpl. unfold ret at 1.
  unfold bind at 1. rewrite Get_ref, (prop_value_own _ _ _ _ Hv).
  unfold bind at 1. rewrite getTarget_primitive by exact Hp.
  rewrite bool_decide_eq_false_2 by discriminate.
  unfold bind at 1. rewrite withTarget_not_object by exact Hprim.
  unfold bind at 1. unfold Set_. rewrite Hm, Hown, Hw. reflexivity.
Qed.

(** A decoration that returns has written a writable slot in the own map of
    the target. *)
Lemma decorate_Ok_slot depth this target member site st u st1 :
  class_of this = MethodDecoratorFactory ->
  decorate depth this target member site st = (Ok u, st1) ->
  exists m om p,
    store st1 !! (key this, target) = Some (VRef m) /\
    heap st1 !! m = Some om /\
    own (property_key member) (o_props om) = Some p /\
    p_writable p = true.
Proof.
  intros Hclass H. unfold decorate in H.
  step H as own0 s0 Hown. unfold getOwnMetadata in Hown. injection Hown as <- <-.
  step H as meta s1 Hmerge. unfold defineMetadata in H. injection H as <- <-.
  assert (exists tagged sf u0, Set_ meta (property_key member) tagged sf = (Ok u0, s1))
    as (tagged & sf & u0 & Hset).
  { destruct (negb (truthy (from_option VUndefined (store st !! (key this, target))))
              && allowInheritance this).
    - step Hmerge as inh sa Hget. step Hmerge as cloned sb Hclone.
      unfold mergeWithInherited in Hmerge. rewrite Hclass in Hmerge.
      unfold MethodDecoratorFactory_mergeWithInherited in Hmerge.
      step Hmerge as mv sc Hdef. step Hmerge as existing sd Hex.
      step Hmerge as merged se Hinh. step Hmerge as tagged sf Htag.
      step Hmerge as u0 sg Hset. ok_inv Hmerge. eauto.
    - unfold mergeWithOwn in Hmerge. rewrite Hclass in Hmerge.
      unfold MethodDecoratorFactory_mergeWithOwn in Hmerge.
      step Hmerge as mv sc Hdef. step Hmerge as existing sd Hex.
      step Hmerge as origin se Horigin.
      destruct (bool_decide (origin = VRef target)).
      { step Hmerge as e sf He. discriminate Hmerge. }
      step Hmerge as tagged sf Htag. step Hmerge as u0 sg Hset. ok_inv Hmerge. eauto. }
  destruct (Set_Ok _ _ _ _ _ _ Hset) as (m & p & -> & _ & Hw & W).
  destruct (written_same _ _ _ _ _ W) as (o & _ & Hm).
  exists m, (with_props o (put (property_key member) p (o_props o))), p.
  cbn [store heap]. rewrite lookup_insert_eq. repeat split; auto.
  apply own_put_eq.
Qed.

(** C9, as amended — duplicate detection only covers object-valued specs.
    The member is not named like a property of [Object.prototype].  A
    decorator has been applied to the member of a target and the slot of
    the member holds a value that is not an object (a primitive,
    [undefined] or [null]).  Then a decorator of the same key whose spec is
    a primitive or [null] - the same decorator, or another - applied to the
    same member of the same target returns: no [DuplicateDecorationError]
    is raised, and the slot holds the new spec afterwards.  On a target
    without metadata under the key, the first application of a decorator
    with such a spec does return and leaves its spec in the slot. *)
Theorem primitive_spec_is_overwritten
    (depth : nat) (f g : factory) (target : nat) (member : string)
    (descriptor : site) (st : state) :
  class_of f = MethodDecoratorFactory -> class_of g = MethodDecoratorFactory ->
  key g = key f ->
  primitive (spec g) = true ->
  inherited_by_every_map member = false ->
  (forall st1 v,
     decorate depth f target (Some member) descriptor st = (Ok tt, st1) ->
     getMethodMetadata (key f) target (Some member) only_own st1 = (Ok v, st1) ->
     primitive v = true ->
     exists st2,
       decorate depth g target (Some member) descriptor st1 = (Ok tt, st2)
       /\ getMethodMetadata (key f) target (Some member) only_own st2 = (Ok (spec g), st2))
  /\ (primitive (spec f) = true ->
      (0 < depth)%nat ->
      effective (S (length (heap st))) (heap st) (store st) (key f) target = VUndefined ->
      exists st1,
        decorate depth f target (Some member) descriptor st = (Ok tt, st1)
        /\ getMethodMetadata (key f) target (Some member) only_own st1 = (Ok (spec f), st1)).
Proof.
  intros Hf Hg Hkey Hpg Hname. split.
  - intros st1 v Hdec Hslot Hpv.
    destruct (decorate_Ok_slot _ _ _ _ _ _ _ _ Hf Hdec) as (m & om & p & Hs & Hm & Hp & Hw).
    assert (own_value st1 m member = Some (p_value p)) as Hv.
    { unfold own_value, own_property. rewrite Hm. simpl in *. rewrite Hp. reflexivity. }
    rewrite (getMethodMetadata_own _ _ _ _ _ _ Hs Hv) in Hslot.
    injection Hslot as Hslot.
    eexists. split.
    + eapply (decorate_own_primitive depth g target (Some member) descriptor st1 m om p);
        auto; congruence.
    + eapply getMethodMetadata_own.
      * cbn [store]. rewrite Hkey. apply lookup_insert_eq.
      * unfold own_value, own_property. cbn [heap].
        rewrite list_lookup_insert_eq by (eapply lookup_lt_Some; eauto).
        simpl. rewrite own_put_eq. reflexivity.
  - intros Hpf Hdepth Hfresh. eexists. split.
    + apply decorate_fresh_primitive; assumption.
    + eapply getMethodMetadata_own.
      * cbn [store]. apply lookup_insert_eq.
      * unfold own_value, own_property. cbn [heap].
        rewrite list_lookup_insert_eq by (rewrite length_app; simpl; lia).
        simpl. destruct (decide (member = member)); [reflexivity | contradiction].
Qed.

(** C9, as stated, fails: [Base.prototype] has metadata whose slot for
    [foo] holds an object without origin tag; the decorator with the spec
    [7] is applied twice to [Sub.prototype.foo].  The first application
    returns - [Object.assign] copies nothing from [7], the inherited object
    is tagged with [Sub.prototype] and stored in the slot -, and the second
    one raises the [DuplicateDecorationError]. *)
Lemma primitive_spec_is_overwritten_counterexample :
  outcome_of (d <- createDecorator stack "K" (VNum 7) None ;;
              d Sub_prototype "foo" MethodDescriptor) foreign_metadata = Ok tt
  /\ outcome_of (decorate_sub_twice (ret (VNum 7))) foreign_metadata
     = Throw (DuplicateDecorationError "duplicate MethodDecorator on Sub.prototype.foo()").
Proof. split; reflexivity. Qed.

(** ** The origin tag is written once *)

Lemma typeof_object_live st l :
  typeof (heap st) (VRef l) = TObject -> exists o, heap st !! l = Some o.
Proof. simpl. destruct (heap st !! l) as [o|]; [eauto | discriminate]. Qed.

Lemma withTarget_untagged st r target :
  typeof (heap st) (VRef r) = TObject ->
  own_property st r TARGET = None ->
  exists st',
    withTarget (VRef r) target st = (Ok (VRef r), st') /\
    property_written st st' r TARGET (Property (VRef target) false false false).
Proof.
  intros Ht Hown. destruct (typeof_object_live _ _ Ht) as (o & Hl).
  unfold own_property in Hown. rewrite Hl in Hown. simpl in Hown.
  eexists. split.
  - rewrite withTarget_object by (split; [exact Ht | reflexivity]).
    unfold bind at 1, defineProperty. rewrite Hl, Hown. simpl. reflexivity.
  - exists o. split; [exact Hl | reflexivity].
Qed.

Lemma withTarget_retag_rejected st r target p :
  typeof (heap st) (VRef r) = TObject ->
  own_property st r TARGET = Some p ->
  p_configurable p = false -> p_writable p = false -> p_value p <> VRef target ->
  withTarget (VRef r) target st =
  (Throw (TypeError "Cannot redefine property: __decoratorTarget"), st).
Proof.
  intros Ht Hown Hc Hw Hv. destruct (typeof_object_live _ _ Ht) as (o & Hl).
  unfold own_property in Hown. rewrite Hl in Hown. simpl in Hown.
  rewrite withTarget_object by (split; [exact Ht | reflexivity]).
  unfold bind at 1, defineProperty. rewrite Hl, Hown.
  rewrite apply_descriptor_rejected by assumption. reflexivity.
Qed.

(** C10 — one marker cannot be reused across unrelated targets.  A factory
    whose spec is an object without an origin tag is applied to a member
    of [A], a target without metadata under the key, and returns.  Applied
    next to a member of another target [B] that has no metadata under the
    key either, it fails with the [TypeError] of [Object.defineProperty]
    - not with a [DuplicateDecorationError] -: the tag of the factory's one
    spec object was defined non-configurable and read-only for [A].  The
    failed application leaves [B] undecorated. *)
Theorem marker_not_reusable
    (depth : nat) (this : factory) (A B : nat) (memberA memberB : option string)
    (descriptor : site) (st st1 : state) (ls : nat) :
  class_of this = MethodDecoratorFactory ->
  (0 < depth)%nat ->
  spec this = VRef ls ->
  typeof (heap st) (VRef ls) = TObject ->
  own_property st ls TARGET = None ->
  effective (S (length (heap st))) (heap st) (store st) (key this) A = VUndefined ->
  decorate depth this A memberA descriptor st = (Ok tt, st1) ->
  A <> B ->
  effective (S (length (heap st1))) (heap st1) (store st1) (key this) B = VUndefined ->
  decorate depth this B memberB descriptor st1 =
  (Throw (TypeError "Cannot redefine property: __decoratorTarget"),
   State (heap st1 ++ [Object KObject [] None]) (store st1)).
Proof.
  intros Hclass Hdepth Hspec Ht Hown HfreshA Hdec Hne HfreshB.
  destruct (typeof_object_live _ _ Ht) as (o & Hl).
  assert (ls < length (heap st))%nat as Hlt by (eapply lookup_lt_Some; eauto).
  (* the first application tags the spec object with [A] *)
  assert (own_property st1 ls TARGET = Some (Property (VRef A) false false false)
          /\ typeof (heap st1) (VRef ls) = TObject) as [Htag Ht1].
  { rewrite decorate_fresh in Hdec by assumption.
    step Hdec as meta s1 Hm. unfold defineMetadata in Hdec. injection Hdec as <-.
    step Hm as tagged s2 Htag. step Hm as u0 s3 Hset. ok_inv Hm.
    set (sa := State (heap st ++ [Object KObject [] None]) (store st)) in *.
    assert (typeof (heap sa) (VRef ls) = TObject) as Hta.
    { simpl. rewrite (lookup_app_l_Some _ _ _ _ Hl). simpl in Ht. rewrite Hl in Ht.
      exact Ht. }
    assert (own_property sa ls TARGET = None) as Howna.
    { unfold own_property in *. simpl. rewrite (lookup_app_l_Some _ _ _ _ Hl).
      rewrite Hl in Hown. exact Hown. }
    rewrite Hspec in Htag.
    destruct (withTarget_untagged sa ls A Hta Howna) as (sb & E & W1).
    rewrite E in Htag. injection Htag as <- <-.
    destruct (Set_Ok _ _ _ _ _ _ Hset) as (l & p & Hlm & _ & _ & W2).
    injection Hlm as <-.
    unfold own_property in *. cbn [heap]. split.
    - pose proof (written_own_ne _ _ _ _ _ W2 ls TARGET) as E2.
      unfold own_property in E2. rewrite E2 by (intros Heq; injection Heq; lia).
      apply (written_own_eq _ _ _ _ _ W1).
    - rewrite (written_typeof _ _ _ _ _ W2), (written_typeof _ _ _ _ _ W1). exact Hta. }
  (* the second one cannot move the tag to [B] *)
  destruct (typeof_object_live _ _ Ht1) as (o1 & Hl1).
  rewrite decorate_fresh by assumption.
  unfold bind at 1. unfold bind at 1. rewrite Hspec.
  rewrite (withTarget_retag_rejected _ ls B (Property (VRef A) false false false)).
  - reflexivity.
  - simpl. rewrite (lookup_app_l_Some _ _ _ _ Hl1). simpl in Ht1. rewrite Hl1 in Ht1.
    exact Ht1.
  - unfold own_property in *. simpl. rewrite (lookup_app_l_Some _ _ _ _ Hl1).
    rewrite Hl1 in Htag. exact Htag.
  - reflexivity.
  - reflexivity.
  - simpl. congruence.
Qed.

(** ** Merging: [inherit] *)

(** C6, as amended — arrays replace, they are never merged.  Whenever the
    inherited value of a slot or the new spec is an array, and the new spec
    is not [null] or [undefined], [inherit] returns the new spec and
    changes nothing on the heap; this does not depend on
    [allowInheritance]. *)
Theorem array_replaces_not_merges (this : factory) (inherited : value) (st : state) :
  is_nullish (spec this) = false ->
  isArray (heap st) inherited = true \/ isArray (heap st) (spec this) = true ->
  inherit this inherited st = (Ok (spec this), st).
Proof.
  intros Hspec Harr. unfold inherit.
  destruct (negb (allowInheritance this)); [reflexivity|].
  destruct (is_nullish inherited); [reflexivity|].
  rewrite Hspec. unfold bind at 1, Typeof.
  destruct (negb (bool_decide (typeof (heap st) inherited = TObject))); [reflexivity|].
  unfold bind, IsArray.
  destruct Harr as [-> | ->]; [reflexivity|]. rewrite orb_true_r. reflexivity.
Qed.

Lemma lookup_chain_ext (n : nat) (h h' : list object) (k : string) :
  (forall l, (o ← h' !! l; own k (o_props o)) = (o ← h !! l; own k (o_props o))) ->
  (forall l, (o_proto <$> h' !! l) = (o_proto <$> h !! l)) ->
  forall l, lookup_chain n h' l k = lookup_chain n h l k.
Proof.
  intros Hown Hproto. induction n as [|n IH]; intros l; simpl; [reflexivity|].
  specialize (Hown l). specialize (Hproto l).
  destruct (h' !! l) as [o'|], (h !! l) as [o|]; simpl in *; try discriminate;
    [|reflexivity].
  rewrite Hown. destruct (own k (o_props o)); [reflexivity|].
  injection Hproto as ->. destruct (o_proto o); [apply IH | reflexivity].
Qed.

Lemma written_find_property st st' l k p l' k' :
  property_written st st' l k p -> k' <> k ->
  find_property (heap st') l' k' = find_property (heap st) l' k'.
Proof.
  intros W Hne. unfold find_property. rewrite (written_length _ _ _ _ _ W).
  apply lookup_chain_ext.
  - intros l0. apply (written_own_ne _ _ _ _ _ W l0 k'). congruence.
  - intros l0. apply (written_shape _ _ _ _ _ W l0).
Qed.

Lemma Set_assignable st l k x :
  assignable (heap st) l k = true ->
  exists p st', Set_ (VRef l) k x st = (Ok tt, st') /\
                property_written st st' l k p /\ p_value p = x /\ p_writable p = true.
Proof.
  unfold assignable, Set_. destruct (heap st !! l) as [o|] eqn:Hl; [|discriminate].
  destruct (own k (o_props o)) as [p|].
  - intros Hw. rewrite Hw. exists (set_value p x). eexists. split; [reflexivity|].
    split; [|split; [reflexivity | exact Hw]]. exists o. auto.
  - intros H.
    assert (exists st', write_property l o k (data_property x) st = (Ok tt, st') /\
                        property_written st st' l k (data_property x)) as (st' & E & W).
    { eexists. split; [reflexivity|]. exists o. auto. }
    exists (data_property x), st'.
    destruct (find_property (heap st) l k) as [p|]; [rewrite H|]; auto.
Qed.

Lemma written_assignable st st' l k p k' :
  property_written st st' l k p -> p_writable p = true ->
  assignable (heap st) l k' = true -> assignable (heap st') l k' = true.
Proof.
  intros W Hw. unfold assignable.
  destruct (written_same _ _ _ _ _ W) as (o & -> & ->). cbn [o_props with_props].
  destruct (decide (k' = k)) as [->|Hne].
  - rewrite own_put_eq. intros _. exact Hw.
  - rewrite own_put_ne by congruence.
    rewrite (written_find_property _ _ _ _ _ l k' W Hne). auto.
Qed.

(** A run of assignments on one object: it goes through when every key is
    assignable, and leaves under each key the last value written. *)
Lemma assign_all (li : nat) (es : list (string * value)) : forall st,
  (forall kv, kv ∈ es -> assignable (heap st) li (fst kv) = true) ->
  exists st',
    reduce (fun (_ : unit) kv => Set_ (VRef li) (fst kv) (snd kv)) es tt st = (Ok tt, st')
    /\ store st' = store st
    /\ (forall l, l <> li -> heap st' !! l = heap st !! l)
    /\ (forall k, own_value st' li k =
                  match assigned k es with
                  | Some v => Some v
                  | None => own_value st li k
                  end).
Proof.
  induction es as [|[k v] es IH]; intros st Hes; simpl.
  - exists st. repeat split; auto.
  - destruct (Set_assignable st li k v) as (p & s1 & E & W & Hp & Hw).
    { apply (Hes (k, v)). left. }
    destruct (IH s1) as (st' & E' & Hs & Ho & Hv).
    { intros kv Hin. eapply written_assignable; eauto. apply Hes. right. exact Hin. }
    exists st'. split; [|split; [|split]].
    + unfold bind. rewrite E. destruct tt. exact E'.
    + rewrite Hs. eapply written_store; eauto.
    + intros l Hl. rewrite (Ho l Hl). eapply written_other; eauto.
    + intros k0. rewrite Hv. destruct (assigned k0 es); [reflexivity|].
      unfold own_value. destruct (decide (k0 = k)) as [->|Hne].
      * rewrite (written_own_eq _ _ _ _ _ W). simpl. congruence.
      * rewrite (written_own_ne _ _ _ _ _ W) by congruence. reflexivity.
Qed.

Lemma assigned_not_in k es : k ∉ map fst es -> assigned k es = None.
Proof.
  induction es as [|[k' v] es IH]; simpl; intros Hn; [reflexivity|].
  rewrite IH by (intros Hin; apply Hn; right; exact Hin).
  destruct (decide (k = k')) as [->|]; [|reflexivity]. exfalso. apply Hn. left.
Qed.

Lemma enumerable_own_keys k ps : k ∈ map fst (enumerable_own ps) -> k ∈ map fst ps.
Proof.
  induction ps as [|[k' p] ps IH]; simpl; [auto|].
  destruct (p_enumerable p); simpl; intros Hin.
  - inversion Hin; subst; [left | right; auto].
  - right. auto.
Qed.

(** With distinct keys, what [Object.assign] writes under [k] is the
    source's own enumerable property [k]. *)
Lemma assigned_enumerable_own k ps :
  NoDup (map fst ps) ->
  assigned k (enumerable_own ps) =
  match own k ps with
  | Some p => if p_enumerable p then Some (p_value p) else None
  | None => None
  end.
Proof.
  induction ps as [|[k' p] ps IH]; simpl; intros Hnd; [reflexivity|].
  inversion Hnd as [|? ? Hnotin Hnd']; subst.
  destruct (decide (k = k')) as [->|Hne].
  - assert (assigned k' (enumerable_own ps) = None) as Hnone.
    { apply assigned_not_in. intros Hin. apply Hnotin, enumerable_own_keys, Hin. }
    destruct (p_enumerable p); simpl; rewrite Hnone; [|reflexivity].
    destruct (decide (k' = k')); [reflexivity | contradiction].
  - destruct (p_enumerable p); simpl; rewrite IH by exact Hnd'.
    + destruct (own k ps) as [q|]; [destruct (p_enumerable q)|];
        try reflexivity; destruct (decide (k = k')); congruence.
    + reflexivity.
Qed.

(** C5 — scalar merge precedence.  With inheritance allowed, an inherited
    value and a new spec that are both objects and neither an array: when
    none of the spec's enumerable keys is read-only on the inherited
    object, [inherit] returns the inherited object, on which every own
    enumerable property of the spec has been written with the spec's value
    (the spec's keys win) and every other property is as it was.  The
    values are copied as they are, a nested object by reference: the merge
    is one level deep.  No other object changes. *)
Theorem scalar_merge_precedence
    (this : factory) (li ls : nat) (oi os : object) (st : state) :
  allowInheritance this = true ->
  spec this = VRef ls ->
  heap st !! li = Some oi -> heap st !! ls = Some os ->
  typeof (heap st) (VRef li) = TObject -> typeof (heap st) (VRef ls) = TObject ->
  isArray (heap st) (VRef li) = false -> isArray (heap st) (VRef ls) = false ->
  NoDup (map fst (o_props os)) ->
  (forall k v, (k, v) ∈ enumerable_own (o_props os) -> assignable (heap st) li k = true) ->
  exists st',
    inherit this (VRef li) st = (Ok (VRef li), st')
    /\ (forall k,
          own_value st' li k =
          match own k (o_props os) with
          | Some p => if p_enumerable p then Some (p_value p) else own_value st li k
          | None => own_value st li k
          end)
    /\ (forall l, l <> li -> heap st' !! l = heap st !! l)
    /\ store st' = store st.
Proof.
  intros Hallow Hspec Hli Hls Hti Hts Hai Has Hnd Hassign.
  assert (enumerable_entries (heap st) (VRef ls) = enumerable_own (o_props os)) as Hes.
  { unfold enumerable_entries. rewrite Hls. simpl in Has. rewrite Hls in Has.
    destruct os as [[ | items | time | ] ps pr]; simpl in *; try reflexivity.
    discriminate. }
  destruct (assign_all li (enumerable_own (o_props os)) st) as (st' & E & Hs & Ho & Hv).
  { intros [k v] Hin. eapply Hassign. exact Hin. }
  exists st'. split; [|split; [|split]]; auto.
  - unfold inherit. rewrite Hallow, Hspec. simpl.
    unfold bind at 1, Typeof. rewrite Hti. simpl.
    unfold bind at 1, IsArray. unfold bind at 1. rewrite Hai, Has. simpl.
    unfold Object_assign. unfold bind at 1. rewrite Hes.
    unfold bind at 1. rewrite E. reflexivity.
  - intros k. rewrite Hv, assigned_enumerable_own by exact Hnd.
    destruct (own k (o_props os)) as [p|]; [destruct (p_enumerable p)|]; reflexivity.
Qed.

(** C6, as stated, fails: with the inherited array [[1, 2]] (the object at
    location 9) and the new spec [null], [inherit] returns the inherited
    array, not the new spec. *)
Lemma array_replaces_counterexample :
  outcome_of (merge_of (array_literal [VNum 1; VNum 2]) (ret VNull)) classes_declared
    = Ok (VRef 9%nat, VNull, VRef 9%nat)
  /\ isArray (heap (state_after (merge_of (array_literal [VNum 1; VNum 2]) (ret VNull))
                                classes_declared)) (VRef 9%nat) = true.
Proof. split; reflexivity. Qed.

(** The example of the specification: [[1, 2]] and [[3]] give [[3]]. *)
Lemma array_replaces_not_merges_witness :
  (is_nullish (spec (K_factory (VRef 10%nat))) = false
   /\ isArray (heap two_arrays) (VRef 9%nat) = true)
  /\ inherit (K_factory (VRef 10%nat)) (VRef 9%nat) two_arrays
     = (Ok (VRef 10%nat), two_arrays).
Proof.
  split; [split; reflexivity|].
  apply (array_replaces_not_merges (K_factory (VRef 10%nat)) (VRef 9%nat) two_arrays).
  - reflexivity.
  - left. reflexivity.
Defined.

(** The example of the specification: [{a:1, b:2}] and [{b:3, c:4}] give
    [{a:1, b:3, c:4}]. *)
Lemma scalar_merge_example :
  outcome_of (merge_of (literal [("a", VNum 1); ("b", VNum 2)])
                       (literal [("b", VNum 3); ("c", VNum 4)])) classes_declared
    = Ok (VRef 9%nat, VRef 10%nat, VRef 9%nat)
  /\ entries (state_after (merge_of (literal [("a", VNum 1); ("b", VNum 2)])
                                    (literal [("b", VNum 3); ("c", VNum 4)]))
                          classes_declared) (VRef 9%nat)
     = [("a", VNum 1); ("b", VNum 3); ("c", VNum 4)].
Proof. split; reflexivity. Qed.

Lemma scalar_merge_precedence_witness :
  exists st',
    inherit (K_factory (VRef 10%nat)) (VRef 9%nat) two_objects = (Ok (VRef 9%nat), st')
    /\ own_value st' 9%nat "a" = Some (VNum 1)
    /\ own_value st' 9%nat "b" = Some (VNum 3)
    /\ own_value st' 9%nat "c" = Some (VNum 4).
Proof.
  destruct (scalar_merge_precedence (K_factory (VRef 10%nat)) 9%nat 10%nat
              (Object KObject [("a", data_property (VNum 1)); ("b", data_property (VNum 2))] None)
              (Object KObject [("b", data_property (VNum 3)); ("c", data_property (VNum 4))] None)
              two_objects)
    as (st' & E & Hv & _ & _).
  - reflexivity.
  - reflexivity.
  - reflexivity.
  - reflexivity.
  - reflexivity.
  - reflexivity.
  - reflexivity.
  - reflexivity.
  - apply (bool_decide_unpack _). vm_compute. exact I.
  - intros k v Hin. simpl in Hin.
    apply elem_of_cons in Hin as [Hin|Hin]; [injection Hin as -> ->; reflexivity|].
    apply elem_of_cons in Hin as [Hin|Hin]; [injection Hin as -> ->; reflexivity|].
    inversion Hin.
  - exists st'. split; [exact E|].
    repeat split; rewrite Hv; reflexivity.
Defined.

(** ** Duplicate decoration *)

Lemma decorate_inherited_throws depth this target member site st e st' :
  class_of this = MethodDecoratorFactory ->
  store st !! (key this, target) = None ->
  allowInheritance this = true ->
  decorate depth this target member site st = (Throw e, st') ->
  runtime_error e.
Proof.
  intros Hclass Hs Hallow H. unfold decorate in H.
  unfold bind at 1, getOwnMetadata in H. rewrite Hs, Hallow in H. simpl in H.
  apply bind_Throw in H as [H | (meta & s1 & _ & H)]; [|discriminate H].
  eapply heap_op_Throw; [|exact H].
  apply heap_op_bind; [apply heap_op_read|]. intros inh.
  apply heap_op_bind; [apply heap_op_cloneDeep|]. intros cloned.
  apply heap_op_mergeWithInherited. exact Hclass.
Qed.

(** C3, as amended — duplicate rejection.  A method decorator whose spec is
    object-valued (an object or an array, not [null]) is applied to a
    member of a target - a member not named [__decoratorTarget] - and
    returns.  Applied a second time directly to the same member of the same
    target, the same decorator raises a [DuplicateDecorationError] whose
    message is ["duplicate <decorator name> on <site>"], the site named as
    [getTargetName] names it, and changes nothing. *)
Theorem duplicate_rejection
    (depth : nat) (f : factory) (target : nat) (member : option string)
    (descriptor : site) (st st1 : state) (name : string) :
  class_of f = MethodDecoratorFactory ->
  object_valued st (spec f) ->
  property_key member <> TARGET ->
  decorate depth f target member descriptor st = (Ok tt, st1) ->
  getTargetName target member descriptor st1 = (Ok name, st1) ->
  decorate depth f target member descriptor st1
    = (Throw (DuplicateDecorationError
                ("duplicate " +:+ decoratorName f +:+ " on " +:+ name)), st1).
Proof.
  intros Hf Hov Hk Hdec Hname.
  apply decorate_tagged_duplicate; [exact Hf | | exact Hname].
  eapply decorate_Ok_tagged; eauto.
Qed.

(** C3, as stated, fails: the same decorator, with the spec [1], applied
    twice to [Base.prototype.foo] returns both times. *)
Lemma duplicate_rejection_counterexample :
  outcome_of (decorate_twice (ret (VNum 1))) classes_declared = Ok tt.
Proof. reflexivity. Qed.

Lemma duplicate_rejection_witness :
  decorate stack (K_factory (VRef 9%nat)) Base_prototype (Some "foo") MethodDescriptor
    two_specs = (Ok tt, base_decorated)
  /\ decorate stack (K_factory (VRef 9%nat)) Base_prototype (Some "foo") MethodDescriptor
       base_decorated
     = (Throw (DuplicateDecorationError "duplicate MethodDecorator on Base.prototype.foo()"),
        base_decorated).
Proof.
  split; [reflexivity|].
  apply (duplicate_rejection stack (K_factory (VRef 9%nat))
           Base_prototype (Some "foo") MethodDescriptor two_specs
           base_decorated "Base.prototype.foo()").
  - reflexivity.
  - split; reflexivity.
  - discriminate.
  - reflexivity.
  - reflexivity.
Defined.

(** ** Deep clone *)

(** C4 — what the code does: for a plain object, whatever copy the
    [reduce] builds is dropped and [cloneDeep] returns the very reference
    it was given, so [cloneDeep(s) === s]. *)
Theorem cloneDeep_returns_its_argument
    (depth : nat) (l : nat) (o : object) (st : state) (v : value) (st' : state) :
  heap st !! l = Some o -> o_kind o = KObject ->
  cloneDeep depth (VRef l) st = (Ok v, st') ->
  v = VRef l.
Proof.
  intros Hl Hk H. destruct depth as [|d]; [discriminate H|]. simpl in H.
  step H as t s1 Ht. unfold Typeof in Ht. injection Ht as <- <-.
  simpl in H. rewrite Hl in H. destruct o as [ko ps pr]. simpl in Hk. subst ko.
  simpl in H.
  step H as kd s2 Hkd. unfold kind_of in Hkd. rewrite Hl in Hkd. injection Hkd as <- <-.
  simpl in H.
  step H as names s3 Hn. step H as o0 s4 Ho. step H as r s5 Hr. ok_inv H.
  reflexivity.
Qed.

Lemma cloneDeep_returns_its_argument_witness :
  cloneDeep stack (VRef 9%nat) role_admin
    = (Ok (VRef 9%nat), state_after (cloneDeep stack (VRef 9%nat)) role_admin)
  /\ VRef 9%nat = VRef 9%nat.
Proof.
  assert (cloneDeep stack (VRef 9%nat) role_admin
          = (Ok (VRef 9%nat), state_after (cloneDeep stack (VRef 9%nat)) role_admin)) as E
    by reflexivity.
  split; [exact E|].
  apply (cloneDeep_returns_its_argument stack 9%nat
           (Object KObject [("role", data_property (VStr "admin"))] None)
           role_admin (VRef 9%nat) _ eq_refl eq_refl E).
Defined.

(** An array is copied, but the objects in it are not: the clone of
    [[{a: 1}]] is a new array holding the same object. *)
Lemma cloneDeep_nested_shared :
  outcome_of (o <- literal [("a", VNum 1)] ;;
              arr <- array_literal [o] ;;
              c <- cloneDeep stack arr ;;
              k <- kind_of c ;;
              ret (o, arr, c, k)) classes_declared
  = Ok (VRef 9%nat, VRef 10%nat, VRef 12%nat, Some (KArray [VRef 9%nat])).
Proof. reflexivity. Qed.

(** ** What the missing [return] of [cloneDeep] leads to *)

(** C1 — what the code does at the end-to-end example.  The base class is
    decorated with [{role: "admin"}]; decorating the subclass override
    with [{level: 5}] then throws a [TypeError]: [cloneDeep] handed back
    the base class's own map and spec object, [Object.assign] wrote
    [level] into that object, and its origin tag cannot be moved to the
    subclass.  Afterwards the subclass has no own metadata and the base
    class's metadata for [foo] reads [{role: "admin", level: 5}]. *)
Theorem end_to_end_throws :
  outcome_of (decorate_base_then_sub (literal [("role", VStr "admin")])
                                     (literal [("level", VNum 5)])) classes_declared
    = Throw (TypeError "Cannot redefine property: __decoratorTarget")
  /\ outcome_of
       (getMethodMetadata "K" Sub_prototype (Some "foo") only_own)
       (state_after (decorate_base_then_sub (literal [("role", VStr "admin")])
                                            (literal [("level", VNum 5)])) classes_declared)
     = Ok VUndefined
  /\ exists v,
       outcome_of
         (getMethodMetadata "K" Base_prototype (Some "foo") None)
         (state_after (decorate_base_then_sub (literal [("role", VStr "admin")])
                                              (literal [("level", VNum 5)])) classes_declared)
       = Ok v
       /\ entries (state_after (decorate_base_then_sub (literal [("role", VStr "admin")])
                                                       (literal [("level", VNum 5)]))
                               classes_declared) v
          = [("role", VStr "admin"); ("level", VNum 5)].
Proof.
  split; [reflexivity|]. split; [reflexivity|].
  exists (VRef 9%nat). split; reflexivity.
Qed.

(** C2 — what the code does to the base class.  With the object specs of
    the example the base class's own value for [foo], stored as
    [{role: "admin"}], has become [{role: "admin", level: 5}]; with the
    primitive specs [1] and [2] both decorations return, base class and
    subclass share one metadata map, and the base class's own value for
    [foo] has become [2]. *)
Theorem base_metadata_is_mutated :
  (exists v,
     outcome_of
       (getMethodMetadata "K" Base_prototype (Some "foo") only_own)
       (state_after (decorate_base_then_sub (literal [("role", VStr "admin")])
                                            (literal [("level", VNum 5)])) classes_declared)
     = Ok v
     /\ entries (state_after (decorate_base_then_sub (literal [("role", VStr "admin")])
                                                     (literal [("level", VNum 5)]))
                             classes_declared) v
        = [("role", VStr "admin"); ("level", VNum 5)])
  /\ outcome_of (decorate_base_then_sub (ret (VNum 1)) (ret (VNum 2))) classes_declared
     = Ok tt
  /\ outcome_of
       (getMethodMetadata "K" Base_prototype (Some "foo") only_own)
       (state_after (decorate_base_then_sub (ret (VNum 1)) (ret (VNum 2))) classes_declared)
     = Ok (VNum 2)
  /\ store (state_after (decorate_base_then_sub (ret (VNum 1)) (ret (VNum 2)))
                        classes_declared) !! ("K", Base_prototype)
     = store (state_after (decorate_base_then_sub (ret (VNum 1)) (ret (VNum 2)))
                          classes_declared) !! ("K", Sub_prototype).
Proof.
  split; [exists (VRef 9%nat); split; reflexivity|].
  split; [reflexivity|]. split; reflexivity.
Qed.

(** C8 — what the code does to the caller's spec.  The options do default
    to [allowInheritance = true] and [cloneInputSpec = true], and the
    constructor does call [cloneDeep]; but for the object [{role: "admin"}]
    the factory's spec is the caller's object itself, and applying the
    decorator to [Base.prototype.foo] defines the hidden property
    [__decoratorTarget] on the caller's object, which had none. *)
Theorem caller_spec_is_tagged :
  outcome_of (sp <- literal [("role", VStr "admin")] ;;
              new_factory stack MethodDecoratorFactory "K" sp None) classes_declared
    = Ok (Factory MethodDecoratorFactory "K" (VRef 9%nat)
                  (Options Absent (Given true) (Given true)) "MethodDecorator")
  /\ own_property role_admin 9%nat TARGET = None
  /\ outcome_of (decorate_once (literal [("role", VStr "admin")])) classes_declared
     = Ok (VRef 9%nat)
  /\ own_property (state_after (decorate_once (literal [("role", VStr "admin")]))
                               classes_declared) 9%nat TARGET
     = Some (Property (VRef Base_prototype) false false false).
Proof. repeat split; reflexivity. Qed.

(** ** The theorems at the example of the specification *)


Lemma primitive_spec_is_overwritten_witness :
  exists st1 st2,
    decorate stack (K_factory (VNum 1)) Base_prototype (Some "foo") MethodDescriptor
      classes_declared = (Ok tt, st1)
    /\ getMethodMetadata "K" Base_prototype (Some "foo") only_own st1 = (Ok (VNum 1), st1)
    /\ decorate stack (K_factory (VNum 1)) Base_prototype (Some "foo") MethodDescriptor st1
       = (Ok tt, st2)
    /\ getMethodMetadata "K" Base_prototype (Some "foo") only_own st2 = (Ok (VNum 1), st2).
Proof.
  destruct (primitive_spec_is_overwritten stack (K_factory (VNum 1)) (K_factory (VNum 1))
              Base_prototype "foo" MethodDescriptor classes_declared
              eq_refl eq_refl eq_refl eq_refl eq_refl) as [Hsecond Hfirst].
  destruct Hfirst as (st1 & H1 & H2); [reflexivity | unfold stack; lia | reflexivity |].
  destruct (Hsecond st1 (VNum 1) H1 H2 eq_refl) as (st2 & H3 & H4).
  exists st1, st2. repeat split; assumption.
Defined.

Lemma marker_not_reusable_witness :
  decorate stack (K_factory (VRef 9%nat)) Other_prototype (Some "bar") MethodDescriptor
    base_decorated
  = (Throw (TypeError "Cannot redefine property: __decoratorTarget"),
     State (heap base_decorated ++ [Object KObject [] None]) (store base_decorated)).
Proof.
  apply (marker_not_reusable stack (K_factory (VRef 9%nat)) Base_prototype Other_prototype
           (Some "foo") (Some "bar") MethodDescriptor two_specs base_decorated 9%nat).
  - reflexivity.
  - unfold stack. lia.
  - reflexivity.
  - reflexivity.
  - reflexivity.
  - reflexivity.
  - reflexivity.
  - discriminate.
  - reflexivity.
Defined.

(* ===================================================================== *)
(** * Further properties of the code *)
(* ===================================================================== *)

(** ** What is left untouched *)

Lemma above_weaken (n : nat) {A} (P Q : A -> Prop) (c : M A) :
  (forall a, P a -> Q a) -> above n P c -> above n Q c.
Proof.
  intros HPQ Hc st Hn. destruct (Hc st Hn) as (H1 & H2 & H3 & H4).
  repeat split; auto.
Qed.

Lemma above_bind (n : nat) {A B} (P : A -> Prop) (Q : B -> Prop) (c : M A) (k : A -> M B) :
  above n P c -> (forall a, P a -> above n Q (k a)) -> above n Q (bind c k).
Proof.
  intros Hc Hk st Hn. destruct (Hc st Hn) as (H1 & H2 & H3 & H4).
  unfold bind. destruct (c st) as [[a|e] s1]; simpl in *.
  - destruct (Hk a (H4 a eq_refl) s1) as (K1 & K2 & K3 & K4); [lia|].
    repeat split; try congruence; try lia. exact K4.
  - repeat split; auto. intros a Ha. discriminate Ha.
Qed.

Lemma above_unchanged (n : nat) {A} (Q : A -> Prop) (c : M A) :
  (forall st, snd (c st) = st) -> (forall st a, fst (c st) = Ok a -> Q a) ->
  above n Q c.
Proof.
  intros Hs HQ st Hn. rewrite Hs. repeat split; auto. apply HQ.
Qed.

Lemma above_ret (n : nat) {A} (Q : A -> Prop) (a : A) : Q a -> above n Q (ret a).
Proof.
  intros Ha. apply above_unchanged; [reflexivity|].
  intros st a' H. injection H as <-. exact Ha.
Qed.

Lemma above_throw (n : nat) {A} (Q : A -> Prop) e : above n Q (@throw A e).
Proof. apply above_unchanged; [reflexivity | discriminate]. Qed.

Lemma above_alloc (n : nat) o : above n (fresh_ref n) (alloc o).
Proof.
  intros st Hn. unfold alloc. simpl. repeat split.
  - apply take_app_le. exact Hn.
  - rewrite length_app. lia.
  - intros a H. injection H as <-. exists (length (heap st)). auto.
Qed.

Lemma above_create_like (n : nat) v : above n (fresh_ref n) (create_like v).
Proof.
  intros st Hn. unfold create_like.
  destruct v as [| | | | |l]; try apply (above_alloc n _ st Hn).
  destruct (heap st !! l); apply (above_alloc n _ st Hn).
Qed.

Lemma Get_unchanged v k st : snd (Get v k st) = st.
Proof. unfold Get. destruct (is_nullish v); reflexivity. Qed.

Lemma above_Set (n : nat) v k x : fresh_ref n v -> above n (fun _ => True) (Set_ v k x).
Proof.
  intros (l & -> & Hl) st Hn. unfold Set_.
  assert (forall p o, let r := write_property l o k p st in
            store (snd r) = store st /\
            take n (heap (snd r)) = take n (heap st) /\
            (length (heap st) <= length (heap (snd r)))%nat /\
            (forall a : unit, fst r = Ok a -> True)) as Hw.
  { intros p o. simpl. repeat split; auto.
    - apply take_insert_ge. exact Hl.
    - rewrite length_insert. lia. }
  destruct (heap st !! l) as [o|]; [|repeat split; auto].
  destruct (own k (o_props o)) as [p|].
  - destruct (p_writable p); [apply Hw | repeat split; auto].
  - destruct (find_property (heap st) l k) as [p|]; [|apply Hw].
    destruct (p_writable p); [apply Hw | repeat split; auto].
Qed.

Lemma above_mapM (n : nat) {A B} (f : A -> M B) xs :
  (forall x, above n (fun _ => True) (f x)) -> above n (fun _ => True) (mapM f xs).
Proof.
  intros Hf. induction xs as [|x xs IH]; simpl.
  - apply above_ret. exact I.
  - eapply above_bind; [apply Hf|]. intros y _.
    eapply above_bind; [exact IH|]. intros ys _. apply above_ret. exact I.
Qed.

Lemma above_reduce (n : nat) {A B} (P : B -> Prop) (f : B -> A -> M B) xs :
  (forall b x, P b -> above n P (f b x)) ->
  forall init, P init -> above n P (reduce f xs init).
Proof.
  intros Hf. induction xs as [|x xs IH]; intros init Hinit; simpl.
  - apply above_ret. exact Hinit.
  - eapply above_bind; [apply Hf; exact Hinit|]. intros acc Hacc. apply IH. exact Hacc.
Qed.

(** One step of the copy loop of [cloneDeep], for a copy [o] that is a new
    object. *)
Lemma above_copy_step (n : nat) (clone : value -> M value) source o key :
  (forall x, above n (fun _ => True) (clone x)) ->
  fresh_ref n o ->
  above n (fresh_ref n)
    (x <- Get source key ;; c <- clone x ;; Set_ o key c ;; ret o).
Proof.
  intros Hclone Ho.
  eapply above_bind with (P := fun _ => True).
  { apply above_unchanged; [apply Get_unchanged | auto]. }
  intros x _. eapply above_bind; [apply Hclone|]. intros c _.
  eapply above_bind; [apply above_Set; exact Ho|]. intros _ _.
  apply above_ret. exact Ho.
Qed.

Lemma above_cloneDeep depth : forall (n : nat) source,
  above n (fun _ => True) (cloneDeep depth source).
Proof.
  induction depth as [|d IH]; intros n source; simpl.
  - apply above_throw.
  - eapply above_bind with (P := fun _ => True).
    { apply above_unchanged; [reflexivity | auto]. }
    intros t _.
    destruct (negb (bool_decide (t = TObject)) || bool_decide (source = VNull)).
    { apply above_ret. exact I. }
    eapply above_bind with (P := fun _ => True).
    { apply above_unchanged; [intros st; destruct source; reflexivity | auto]. }
    assert (above n (fun _ => True)
              (names <- getOwnPropertyNames source ;;
               o0 <- create_like source ;;
               _ <- reduce (fun o key =>
                              x <- Get source key ;;
                              c <- cloneDeep d x ;;
                              Set_ o key c ;;
                              ret o) names o0 ;;
               ret source)) as Hobject.
    { eapply above_bind with (P := fun _ => True).
      { apply above_unchanged; [|auto]. intros st. unfold getOwnPropertyNames.
        destruct source; try reflexivity. destruct (heap st !! l); reflexivity. }
      intros names _. eapply above_bind; [apply above_create_like|]. intros o0 Ho0.
      eapply above_bind; [|intros; apply above_ret; exact I].
      apply above_reduce; [|exact Ho0]. intros o key Ho.
      apply above_copy_step; [apply IH | exact Ho]. }
    intros [[ | items | time | ]|] _; try exact Hobject.
    + eapply above_bind; [apply above_mapM; intros x; apply IH|]. intros items' _.
      eapply above_weaken; [|apply above_alloc]. auto.
    + eapply above_weaken; [|apply above_alloc]. auto.
Qed.

Lemma cloneDeep_only_allocates_aux depth source st :
  store (snd (cloneDeep depth source st)) = store st
  /\ heap st `prefix_of` heap (snd (cloneDeep depth source st)).
Proof.
  destruct (above_cloneDeep depth (length (heap st)) source st) as (H1 & H2 & _ & _);
    [lia|].
  split; [exact H1|]. rewrite firstn_all in H2. rewrite <- H2. apply prefix_take.
Qed.

(** X1 — [cloneDeep] only allocates.  Whatever it is given and whether it
    returns or throws, it leaves the reflection store as it is and every
    object that existed before the call exactly as it was: the heap after
    the call is the heap before it, followed by new objects. *)
Theorem cloneDeep_only_allocates (depth : nat) (source : value) (st : state) :
  store (state_after (cloneDeep depth source) st) = store st
  /\ heap st `prefix_of` heap (state_after (cloneDeep depth source) st).
Proof.
  exact (cloneDeep_only_allocates_aux depth source st).
Qed.

(** ** Cycles and flat arrays *)

Lemma typeof_plain_object st l o :
  heap st !! l = Some o -> o_kind o = KObject -> typeof (heap st) (VRef l) = TObject.
Proof. intros Hl Hk. simpl. rewrite Hl. destruct o as [[| | |] ps pr]; try discriminate; reflexivity. Qed.

Lemma own_in_names k ps p : own k ps = Some p -> k ∈ map fst ps.
Proof.
  induction ps as [|[k' p'] ps IH]; simpl; [discriminate|].
  destruct (decide (k = k')) as [->|Hne]; intros H; [left | right; auto].
Qed.

Section Cycle.
Context (l : nat) (o : object) (k : string) (p : property).
Hypothesis Hkind : o_kind o = KObject.
Hypothesis Hown : own k (o_props o) = Some p.
Hypothesis Hself : p_value p = VRef l.

(** The copy loop reaches the property that refers back to the object. *)
Lemma copy_loop_throws (clone : value -> M value) (n : nat) :
  (forall x, above n (fun _ => True) (clone x)) ->
  (forall st, heap st !! l = Some o -> exists e st', clone (VRef l) st = (Throw e, st')) ->
  (l < n)%nat ->
  forall names, k ∈ names ->
  forall acc st, fresh_ref n acc -> (n <= length (heap st))%nat -> heap st !! l = Some o ->
  exists e st',
    reduce (fun o key => x <- Get (VRef l) key ;; c <- clone x ;; Set_ o key c ;; ret o)
           names acc st = (Throw e, st').
Proof.
  intros Habove Hthrows Hl names. induction names as [|key names IH]; intros Hin.
  { inversion Hin. }
  intros acc st Hacc Hn Hst. simpl. unfold bind at 1.
  destruct (decide (key = k)) as [->|Hne].
  - unfold bind at 1. rewrite Get_ref.
    assert (prop_value (heap st) (VRef l) k = VRef l) as ->.
    { apply prop_value_own. unfold own_value, own_property. rewrite Hst. simpl.
      rewrite Hown. simpl. congruence. }
    unfold bind at 1. destruct (Hthrows st Hst) as (e & st' & ->). eauto.
  - pose proof (above_copy_step n clone (VRef l) acc key Habove Hacc st Hn)
      as (_ & Htake & Hlen & Hres).
    destruct ((x <- Get (VRef l) key ;; c <- clone x ;; Set_ acc key c ;; ret acc) st)
      as [[acc'|e] s1] eqn:E; simpl in *; [|eauto].
    apply IH.
    + inversion Hin; subst; [contradiction | assumption].
    + apply Hres. reflexivity.
    + lia.
    + rewrite <- (lookup_take_lt (heap s1) n l Hl), Htake, lookup_take_lt by exact Hl.
      exact Hst.
Qed.

Lemma cloneDeep_self_cycle depth : forall st,
  heap st !! l = Some o -> exists e st', cloneDeep depth (VRef l) st = (Throw e, st').
Proof.
  induction depth as [|d IH]; intros st Hst; simpl.
  { unfold throw. eauto. }
  unfold bind at 1, Typeof. rewrite (typeof_plain_object _ _ _ Hst Hkind). simpl.
  unfold bind at 1, kind_of. rewrite Hst. simpl. rewrite Hkind.
  unfold bind at 1, getOwnPropertyNames. rewrite Hst.
  unfold bind at 1, create_like. rewrite Hst, alloc_Ok.
  assert (l < length (heap st))%nat as Hl by (eapply lookup_lt_Some; eauto).
  destruct (copy_loop_throws (cloneDeep d) (length (heap st))
              (fun x => above_cloneDeep d _ x) IH Hl
              (map fst (o_props o)) (own_in_names _ _ _ Hown)
              (VRef (length (heap st)))
              (State (heap st ++ [Object KObject [] (o_proto o)]) (store st)))
    as (e & st' & E).
  - exists (length (heap st)). auto.
  - simpl. rewrite length_app. lia.
  - simpl. apply lookup_app_l_Some. exact Hst.
  - unfold bind at 1. rewrite E. eauto.
Qed.
End Cycle.

(** X2 — no cycle detection.  For a plain object one of whose own
    properties refers to the object itself, [cloneDeep] never returns,
    whatever stack is available: it ends in a runtime error (the
    [RangeError] of an exhausted stack, or a [TypeError] of an assignment
    made on the way). *)
Theorem cloneDeep_cycle_never_returns
    (depth : nat) (l : nat) (o : object) (k : string) (p : property) (st : state) :
  heap st !! l = Some o -> o_kind o = KObject ->
  own k (o_props o) = Some p -> p_value p = VRef l ->
  exists e st', cloneDeep depth (VRef l) st = (Throw e, st') /\ runtime_error e.
Proof.
  intros Hst Hkind Hown Hself.
  destruct (cloneDeep_self_cycle l o k p Hkind Hown Hself depth st Hst) as (e & st' & E).
  exists e, st'. split; [exact E|].
  eapply heap_op_Throw; [apply heap_op_cloneDeep | exact E].
Qed.

Lemma cloneDeep_cycle_never_returns_witness :
  exists e st', cloneDeep stack (VRef 9%nat) self_cycle = (Throw e, st') /\ runtime_error e.
Proof.
  apply (cloneDeep_cycle_never_returns stack 9%nat
           (Object KObject [("name", data_property (VStr "loop"));
                            ("self", data_property (VRef 9%nat))] None)
           "self" (data_property (VRef 9%nat)) self_cycle); reflexivity.
Defined.

Lemma cloneDeep_primitive depth x st :
  (0 < depth)%nat -> primitive x = true -> cloneDeep depth x st = (Ok x, st).
Proof.
  intros Hd Hx. destruct depth as [|d]; [lia|].
  destruct x; try discriminate; reflexivity.
Qed.

Lemma mapM_primitives depth (items : list value) st :
  (0 < depth)%nat -> Forall (fun x => primitive x = true) items ->
  mapM (cloneDeep depth) items st = (Ok items, st).
Proof.
  intros Hd Hall. induction Hall as [|x xs Hx Hxs IH]; simpl; [reflexivity|].
  unfold bind at 1. rewrite cloneDeep_primitive by assumption.
  unfold bind at 1. rewrite IH. reflexivity.
Qed.

(** X3 — an array of primitives is copied.  With a stack of at least two
    calls, [cloneDeep] of an array whose elements are primitives (or
    [null]) returns a new array with the same elements and changes nothing
    else.  The copy has no own named properties: whatever the source array
    carried besides its elements, a hidden origin tag included, is not
    copied. *)
Theorem cloneDeep_flat_array
    (depth : nat) (l : nat) (items : list value) (ps : list (string * property))
    (pr : option nat) (st : state) :
  (1 < depth)%nat ->
  heap st !! l = Some (Object (KArray items) ps pr) ->
  Forall (fun x => primitive x = true) items ->
  cloneDeep depth (VRef l) st
  = (Ok (VRef (length (heap st))),
     State (heap st ++ [Object (KArray items) [] None]) (store st))
  /\ VRef (length (heap st)) <> VRef l.
Proof.
  intros Hd Hl Hall. split.
  - destruct depth as [|d]; [lia|]. simpl.
    unfold bind at 1, Typeof. simpl. rewrite Hl. simpl.
    unfold bind at 1, kind_of. rewrite Hl. simpl.
    unfold bind at 1. rewrite mapM_primitives by (auto; lia). reflexivity.
  - apply lookup_lt_Some in Hl. intros H. injection H as H. lia.
Qed.

Lemma cloneDeep_flat_array_witness :
  cloneDeep stack (VRef 9%nat) two_arrays
  = (Ok (VRef 11%nat),
     State (heap two_arrays ++ [Object (KArray [VNum 1; VNum 2]) [] None])
           (store two_arrays))
  /\ VRef 11%nat <> VRef 9%nat.
Proof.
  apply (cloneDeep_flat_array stack 9%nat [VNum 1; VNum 2] [] None two_arrays).
  - unfold stack. lia.
  - reflexivity.
  - repeat constructor.
Defined.

(** ** The origin tag *)

Lemma apply_descriptor_tag current target p :
  apply_descriptor current (Descriptor (Some (VRef target)) None (Some false) (Some false))
    = Some p ->
  p_value p = VRef target /\ p_enumerable p = false /\ p_configurable p = false.
Proof.
  unfold apply_descriptor. destruct current as [p0|].
  - match goal with |- (if ?c then _ else _) = _ -> _ => destruct c end; [discriminate|].
    intros H. injection H as <-. auto.
  - intros H. injection H as <-. auto.
Qed.

Lemma apply_descriptor_again target p :
  p_value p = VRef target -> p_enumerable p = false -> p_configurable p = false ->
  apply_descriptor (Some p) (Descriptor (Some (VRef target)) None (Some false) (Some false))
    = Some p.
Proof.
  intros Hv He Hc. unfold apply_descriptor. simpl. rewrite Hc, He, Hv. simpl.
  rewrite bool_decide_eq_true_2 by reflexivity. simpl. rewrite andb_false_r.
  destruct p as [v w e c]. simpl in *. subst. reflexivity.
Qed.

Lemma put_same k p ps : own k ps = Some p -> put k p ps = ps.
Proof.
  induction ps as [|[k' p'] ps IH]; simpl; [discriminate|].
  destruct (decide (k = k')) as [->|Hne].
  - intros H. injection H as ->. reflexivity.
  - intros H. rewrite IH by exact H. reflexivity.
Qed.

Lemma enumerable_own_put_hidden k p ps :
  own k ps = None -> p_enumerable p = false ->
  enumerable_own (put k p ps) = enumerable_own ps.
Proof.
  intros Hown He. induction ps as [|[k' p'] ps IH]; simpl in *.
  - rewrite He. reflexivity.
  - destruct (decide (k = k')); [discriminate|]. simpl. rewrite IH by exact Hown.
    reflexivity.
Qed.

(** X4 — the origin tag round trip.  When [withTarget] returns for an
    object-valued spec, it returns that spec, [getTarget] then reads the
    target back from it, and tagging it again with the same target is
    accepted and changes nothing. *)
Theorem origin_tag_round_trip
    (sp : value) (target : nat) (st : state) (v : value) (st1 : state) :
  object_valued st sp ->
  withTarget sp target st = (Ok v, st1) ->
  v = sp
  /\ getTarget sp st1 = (Ok (VRef target), st1)
  /\ withTarget sp target st1 = (Ok sp, st1).
Proof.
  intros Hov H. rewrite withTarget_object in H by exact Hov.
  step H as u st2 Hdef. ok_inv H.
  apply defineProperty_Ok in Hdef as (l & o & p & -> & Hl & Hp & W).
  destruct (apply_descriptor_tag _ _ _ Hp) as (Hv & He & Hc).
  assert (typeof (heap st2) (VRef l) = TObject) as Ht.
  { rewrite (written_typeof _ _ _ _ _ W). apply Hov. }
  split; [reflexivity|]. split.
  - apply getTarget_tagged; [exact Ht|].
    unfold own_value. rewrite (written_own_eq _ _ _ _ _ W). simpl. congruence.
  - rewrite withTarget_object by (split; [exact Ht | reflexivity]).
    destruct (written_same _ _ _ _ _ W) as (o0 & Hl0 & Hl1).
    unfold bind at 1, defineProperty. rewrite Hl1. cbn [o_props with_props].
    rewrite own_put_eq, (apply_descriptor_again target p Hv He Hc).
    unfold write_property. cbn [o_props with_props o_kind o_proto].
    rewrite (put_same TARGET p (put TARGET p (o_props o0))) by apply own_put_eq.
    rewrite list_insert_id by exact Hl1. destruct st2. reflexivity.
Qed.

Lemma origin_tag_round_trip_witness :
  getTarget (VRef 9%nat) (state_after (withTarget (VRef 9%nat) Base_prototype) role_admin)
    = (Ok (VRef Base_prototype),
       state_after (withTarget (VRef 9%nat) Base_prototype) role_admin)
  /\ withTarget (VRef 9%nat) Base_prototype
       (state_after (withTarget (VRef 9%nat) Base_prototype) role_admin)
     = (Ok (VRef 9%nat), state_after (withTarget (VRef 9%nat) Base_prototype) role_admin).
Proof.
  destruct (origin_tag_round_trip (VRef 9%nat) Base_prototype role_admin (VRef 9%nat)
              (state_after (withTarget (VRef 9%nat) Base_prototype) role_admin))
    as (_ & H1 & H2).
  - split; reflexivity.
  - reflexivity.
  - split; assumption.
Defined.

(** X5 — the origin tag is hidden.  Tagging an object that has no own
    [__decoratorTarget] property leaves the enumerable entries of every
    value as they were: the tag does not show in a structural comparison
    of the spec, and [Object.assign] does not copy it. *)
Theorem origin_tag_is_not_enumerable
    (r target : nat) (st : state) (v : value) (st1 : state) :
  typeof (heap st) (VRef r) = TObject ->
  own_property st r TARGET = None ->
  withTarget (VRef r) target st = (Ok v, st1) ->
  forall x, entries st1 x = entries st x.
Proof.
  intros Ht Hown H x.
  destruct (withTarget_untagged st r target Ht Hown) as (st' & E & W).
  rewrite E in H. injection H as <- <-.
  unfold entries, enumerable_entries. destruct x as [| | | | |l]; try reflexivity.
  destruct (decide (l = r)) as [->|Hne].
  - destruct (written_same _ _ _ _ _ W) as (o & Hl & Hl'). rewrite Hl, Hl'.
    cbn [o_kind o_props with_props]. f_equal.
    apply enumerable_own_put_hidden; [|reflexivity].
    unfold own_property in Hown. rewrite Hl in Hown. exact Hown.
  - rewrite (written_other _ _ _ _ _ W) by exact Hne. reflexivity.
Qed.

Lemma origin_tag_is_not_enumerable_witness :
  entries (state_after (withTarget (VRef 9%nat) Base_prototype) role_admin) (VRef 9%nat)
  = [("role", VStr "admin")].
Proof.
  rewrite (origin_tag_is_not_enumerable 9%nat Base_prototype role_admin (VRef 9%nat)
             (state_after (withTarget (VRef 9%nat) Base_prototype) role_admin)
             eq_refl eq_refl eq_refl (VRef 9%nat)).
  reflexivity.
Defined.

(** ** The reflection store is written by [decorate] only, at one entry *)

Lemma store_kept_unchanged {A} (c : M A) : (forall st, snd (c st) = st) -> store_kept c.
Proof. intros H st. rewrite H. reflexivity. Qed.

Lemma store_kept_ret {A} (a : A) : store_kept (ret a).
Proof. intros st. reflexivity. Qed.

Lemma store_kept_throw {A} e : store_kept (@throw A e).
Proof. intros st. reflexivity. Qed.

Lemma store_kept_bind {A B} (c : M A) (k : A -> M B) :
  store_kept c -> (forall a, store_kept (k a)) -> store_kept (bind c k).
Proof.
  intros Hc Hk st. unfold bind. specialize (Hc st).
  destruct (c st) as [[a|e] s1]; simpl in *; [|exact Hc].
  rewrite (Hk a s1). exact Hc.
Qed.

Lemma store_kept_alloc o : store_kept (alloc o).
Proof. intros st. reflexivity. Qed.

Lemma store_kept_Get v k : store_kept (Get v k).
Proof. apply store_kept_unchanged. apply Get_unchanged. Qed.

Lemma store_kept_Typeof v : store_kept (Typeof v).
Proof. intros st. reflexivity. Qed.

Lemma store_kept_IsArray v : store_kept (IsArray v).
Proof. intros st. reflexivity. Qed.

Lemma store_kept_Set v k x : store_kept (Set_ v k x).
Proof.
  intros st. unfold Set_. destruct v as [| | | | |l]; try reflexivity.
  destruct (heap st !! l) as [o|]; [|reflexivity].
  destruct (own k (o_props o)) as [p|].
  - destruct (p_writable p); reflexivity.
  - destruct (find_property (heap st) l k) as [p|]; [|reflexivity].
    destruct (p_writable p); reflexivity.
Qed.

Lemma store_kept_defineProperty v k d : store_kept (defineProperty v k d).
Proof.
  intros st. unfold defineProperty. destruct v as [| | | | |l]; try reflexivity.
  destruct (heap st !! l) as [o|]; [|reflexivity].
  destruct (apply_descriptor (own k (o_props o)) d); reflexivity.
Qed.

Lemma store_kept_reduce {A B} (f : B -> A -> M B) xs :
  (forall b x, store_kept (f b x)) -> forall init, store_kept (reduce f xs init).
Proof.
  intros Hf. induction xs as [|x xs IH]; intros init; simpl.
  - apply store_kept_ret.
  - apply store_kept_bind; [apply Hf | intros acc; apply IH].
Qed.

Lemma store_kept_cloneDeep depth source : store_kept (cloneDeep depth source).
Proof.
  intros st. destruct (above_cloneDeep depth 0%nat source st) as (H & _); [lia|].
  exact H.
Qed.

Create HintDb store_kept.
#[local] Hint Resolve store_kept_ret store_kept_throw store_kept_alloc store_kept_Get
  store_kept_Typeof store_kept_IsArray store_kept_Set store_kept_defineProperty
  store_kept_cloneDeep : store_kept.

Lemma store_kept_Object_assign target source : store_kept (Object_assign target source).
Proof.
  unfold Object_assign. apply store_kept_bind; [intros st; reflexivity|]. intros es.
  apply store_kept_bind; [|auto with store_kept].
  apply store_kept_reduce. auto with store_kept.
Qed.

Lemma store_kept_inherit this inherited : store_kept (inherit this inherited).
Proof.
  unfold inherit.
  destruct (negb (allowInheritance this)); [auto with store_kept|].
  destruct (is_nullish inherited); [auto with store_kept|].
  destruct (is_nullish (spec this)); [auto with store_kept|].
  apply store_kept_bind; [auto with store_kept|]. intros t.
  destruct (negb (bool_decide (t = TObject))); [auto with store_kept|].
  apply store_kept_bind; [auto with store_kept|]. intros a.
  apply store_kept_bind; [auto with store_kept|]. intros b.
  destruct (a || b); [auto with store_kept | apply store_kept_Object_assign].
Qed.

Lemma store_kept_withTarget sp target : store_kept (withTarget sp target).
Proof.
  unfold withTarget. apply store_kept_bind; [auto with store_kept|]. intros t.
  destruct (bool_decide (t = TObject) && negb (is_nullish sp)); [|auto with store_kept].
  apply store_kept_bind; auto with store_kept.
Qed.

Lemma store_kept_getTarget sp : store_kept (getTarget sp).
Proof.
  unfold getTarget. apply store_kept_bind; [auto with store_kept|]. intros t.
  destruct (bool_decide (t = TObject) && negb (is_nullish sp)); auto with store_kept.
Qed.

Lemma store_kept_or_empty_object v : store_kept (or_empty_object v).
Proof.
  unfold or_empty_object. destruct (bool_decide (v = VUndefined)); auto with store_kept.
Qed.

Lemma getTargetName_unchanged target member site st :
  snd (getTargetName target member site st) = st.
Proof.
  unfold getTargetName, bind, instanceof_Function.
  destruct (bool_decide (typeof (heap st) (VRef target) = TFunction)).
  - rewrite Get_ref. simpl.
    destruct member as [m|], site; reflexivity.
  - rewrite Get_ref.
    pose proof (Get_unchanged (prop_value (heap st) (VRef target) "constructor") "name" st)
      as H.
    destruct (Get (prop_value (heap st) (VRef target) "constructor") "name" st)
      as [[n|e] s1]; simpl in H; subst s1; [|reflexivity].
    destruct member as [m|], site; reflexivity.
Qed.

Lemma store_kept_mergeWithInherited this meta target member site :
  store_kept (mergeWithInherited this meta target member site).
Proof.
  unfold mergeWithInherited. destruct (class_of this).
  - apply store_kept_throw.
  - unfold MethodDecoratorFactory_mergeWithInherited.
    apply store_kept_bind; [apply store_kept_or_empty_object|]. intros m.
    apply store_kept_bind; [auto with store_kept|]. intros existing.
    apply store_kept_bind; [apply store_kept_inherit|]. intros merged.
    apply store_kept_bind; [apply store_kept_withTarget|]. intros tagged.
    apply store_kept_bind; auto with store_kept.
Qed.

Lemma store_kept_mergeWithOwn this meta target member site :
  store_kept (mergeWithOwn this meta target member site).
Proof.
  unfold mergeWithOwn. destruct (class_of this).
  - apply store_kept_throw.
  - unfold MethodDecoratorFactory_mergeWithOwn.
    apply store_kept_bind; [apply store_kept_or_empty_object|]. intros m.
    apply store_kept_bind; [auto with store_kept|]. intros existing.
    apply store_kept_bind; [apply store_kept_getTarget|]. intros origin.
    destruct (bool_decide (origin = VRef target)).
    + apply store_kept_bind; [|auto with store_kept].
      unfold new_DuplicateDecorationError.
      apply store_kept_bind; [|auto with store_kept].
      apply store_kept_unchanged. apply getTargetName_unchanged.
    + apply store_kept_bind; [apply store_kept_withTarget|]. intros tagged.
      apply store_kept_bind; auto with store_kept.
Qed.

(** X6 — [decorate] writes one entry of the reflection store, and only when
    it returns.  For every factory, target and state: under any other key
    or for any other target the store holds after the call the value it
    held before - for a metadata map, the reference to the same object -,
    and when the call throws every entry of the store is the one it was.
    This is about the entries only: the objects they refer to are on the
    heap, and [decorate] can write into them. *)
Theorem decorate_store_frame
    (depth : nat) (this : factory) (target : nat) (member : option string)
    (descriptor : site) (st : state) :
  (forall key' target',
     (key', target') <> (key this, target) ->
     store (state_after (decorate depth this target member descriptor) st) !! (key', target')
       = store st !! (key', target'))
  /\ (forall e,
        outcome_of (decorate depth this target member descriptor) st = Throw e ->
        store (state_after (decorate depth this target member descriptor) st) = store st).
Proof.
  set (own0 := from_option VUndefined (store st !! (key this, target))).
  set (merge := if negb (truthy own0) && allowInheritance this
                then (meta <- getMetadata (key this) target ;;
                      meta0 <- cloneDeep depth meta ;;
                      mergeWithInherited this meta0 target member descriptor)
                else mergeWithOwn this own0 target member descriptor).
  assert (decorate depth this target member descriptor st
          = bind merge (fun meta => defineMetadata (key this) meta target) st) as E
    by reflexivity.
  assert (store_kept merge) as Hkept.
  { unfold merge. destruct (negb (truthy own0) && allowInheritance this).
    - apply store_kept_bind; [intros s; reflexivity|]. intros inh.
      apply store_kept_bind; [apply store_kept_cloneDeep|]. intros cloned.
      apply store_kept_mergeWithInherited.
    - apply store_kept_mergeWithOwn. }
  specialize (Hkept st). unfold outcome_of, state_after. rewrite E. unfold bind.
  destruct (merge st) as [[meta|e] s1]; cbn [fst snd] in *.
  - split; [|discriminate]. intros key' target' Hne.
    unfold defineMetadata. cbn [snd store].
    rewrite lookup_insert_ne by congruence. rewrite Hkept. reflexivity.
  - split; [|auto]. intros key' target' _. rewrite Hkept. reflexivity.
Qed.

Lemma decorate_store_frame_witness :
  store (state_after (decorate stack (K_factory (VNum 2)) Sub_prototype (Some "foo")
                        MethodDescriptor) base_decorated_1) !! ("K", Base_prototype)
    = store base_decorated_1 !! ("K", Base_prototype)
  /\ outcome_of (decorate stack (K_factory (VRef 10%nat)) Sub_prototype (Some "foo")
                   MethodDescriptor) base_decorated
     = Throw (TypeError "Cannot redefine property: __decoratorTarget")
  /\ store (state_after (decorate stack (K_factory (VRef 10%nat)) Sub_prototype (Some "foo")
                           MethodDescriptor) base_decorated)
     = store base_decorated.
Proof.
  destruct (decorate_store_frame stack (K_factory (VNum 2)) Sub_prototype (Some "foo")
              MethodDescriptor base_decorated_1) as (H1 & _).
  destruct (decorate_store_frame stack (K_factory (VRef 10%nat)) Sub_prototype (Some "foo")
              MethodDescriptor base_decorated) as (_ & H2).
  split; [apply H1; discriminate|].
  split; [reflexivity|]. eapply H2. reflexivity.
Defined.

(** ** The abstract base class *)

(** X7 — the base class decorates nothing.  For a factory of the base
    class [DecoratorFactory], [create] throws the [NotImplementedError]
    naming the decorator and ["create()"], and [decorate] never returns: it
    throws the [NotImplementedError] of [mergeWithInherited] or of
    [mergeWithOwn] (or the runtime error of cloning the inherited
    metadata), and leaves the reflection store as it was. *)
Theorem abstract_factory_never_decorates
    (depth : nat) (this : factory) (target : nat) (member : option string)
    (descriptor : site) (st : state) :
  class_of this = DecoratorFactory ->
  create depth this st
    = (Throw (NotImplementedError
                ("not implemented for " +:+ decoratorName this +:+ ": create()")), st)
  /\ exists e st',
       decorate depth this target member descriptor st = (Throw e, st')
       /\ store st' = store st
       /\ (runtime_error e
           \/ e = NotImplementedError
                    ("not implemented for " +:+ decoratorName this
                     +:+ ": mergeWithInherited()")
           \/ e = NotImplementedError
                    ("not implemented for " +:+ decoratorName this +:+ ": mergeWithOwn()")).
Proof.
  intros Hclass. split.
  { unfold create. rewrite Hclass. reflexivity. }
  unfold decorate. unfold bind at 1, getOwnMetadata.
  destruct (negb (truthy (from_option VUndefined (store st !! (key this, target))))
            && allowInheritance this).
  - unfold bind at 1. unfold bind at 1, getMetadata. unfold bind at 1.
    pose proof (store_kept_cloneDeep depth
                  (effective (S (length (heap st))) (heap st) (store st) (key this) target)
                  st) as Hs.
    destruct (cloneDeep depth _ st) as [[cloned|e] s1] eqn:E; simpl in Hs.
    + unfold mergeWithInherited. rewrite Hclass. eexists. exists s1.
      split; [reflexivity|]. split; [exact Hs|]. right. left. reflexivity.
    + exists e, s1. split; [reflexivity|]. split; [exact Hs|]. left.
      eapply heap_op_Throw; [apply heap_op_cloneDeep | exact E].
  - unfold bind at 1. unfold mergeWithOwn. rewrite Hclass. eexists. exists st.
    split; [reflexivity|]. split; [reflexivity|]. right. right. reflexivity.
Qed.

Lemma abstract_factory_never_decorates_witness :
  create stack (base_factory (VNum 1)) classes_declared
    = (Throw (NotImplementedError "not implemented for Decorator: create()"),
       classes_declared)
  /\ exists e st',
       decorate stack (base_factory (VNum 1)) Base_prototype (Some "foo") MethodDescriptor
         classes_declared = (Throw e, st')
       /\ store st' = store classes_declared.
Proof.
  destruct (abstract_factory_never_decorates stack (base_factory (VNum 1)) Base_prototype
              (Some "foo") MethodDescriptor classes_declared eq_refl)
    as (H1 & e & st' & H2 & H3 & _).
  split; [exact H1|]. exists e, st'. split; assumption.
Defined.

(** ** The own path and the path without inheritance *)

Lemma withTarget_inv sp target st v st' :
  withTarget sp target st = (Ok v, st') ->
  v = sp /\ (st' = st \/ exists r p, sp = VRef r /\ property_written st st' r TARGET p).
Proof.
  unfold withTarget. intros H. step H as t s Ht. unfold Typeof in Ht.
  injection Ht as <- <-.
  destruct (bool_decide (typeof (heap st) sp = TObject) && negb (is_nullish sp)).
  - step H as u s1 Hdef. ok_inv H.
    apply defineProperty_Ok in Hdef as (l & o & p & -> & _ & _ & W).
    split; [reflexivity|]. right. eauto.
  - ok_inv H. auto.
Qed.

Lemma getTarget_unchanged sp st : snd (getTarget sp st) = st.
Proof.
  unfold getTarget, bind, Typeof.
  destruct (bool_decide (typeof (heap st) sp = TObject) && negb (is_nullish sp));
    [apply Get_unchanged | reflexivity].
Qed.

(** X8 — a later decoration of the same class reuses its map and replaces
    one slot.  The member is not named like a property of
    [Object.prototype].  When the target already has own metadata under the
    key (the map [m]) and [decorate] returns, the target's own metadata is
    still the object [m], the slot of the member holds the factory's spec
    itself - nothing is merged on this path -, and the slots of the other
    members are what they were. *)
Theorem own_path_replaces_slot
    (depth : nat) (this : factory) (target : nat) (member : option string)
    (descriptor : site) (st st1 : state) (m : nat) :
  class_of this = MethodDecoratorFactory ->
  inherited_by_every_map (property_key member) = false ->
  store st !! (key this, target) = Some (VRef m) ->
  decorate depth this target member descriptor st = (Ok tt, st1) ->
  store st1 !! (key this, target) = Some (VRef m)
  /\ own_value st1 m (property_key member) = Some (spec this)
  /\ (forall k', k' <> property_key member -> k' <> TARGET ->
        own_value st1 m k' = own_value st m k').
Proof.
  intros Hclass Hname Hs H. unfold decorate in H.
  step H as own0 s0 Hown. unfold getOwnMetadata in Hown. rewrite Hs in Hown.
  injection Hown as <- <-. simpl in H.
  step H as meta s1 Hmerge. unfold defineMetadata in H. injection H as <-.
  unfold mergeWithOwn in Hmerge. rewrite Hclass in Hmerge.
  unfold MethodDecoratorFactory_mergeWithOwn in Hmerge.
  step Hmerge as mv sc Hdef. unfold or_empty_object in Hdef. simpl in Hdef.
  injection Hdef as <- <-.
  step Hmerge as existing sd Hex. apply Get_Ok in Hex as [-> ->].
  step Hmerge as origin se Horigin.
  pose proof (getTarget_unchanged (prop_value (heap st) (VRef m) (property_key member)) st)
    as Hse. rewrite Horigin in Hse. simpl in Hse. subst se.
  destruct (bool_decide (origin = VRef target)).
  { step Hmerge as e sf He. discriminate Hmerge. }
  step Hmerge as tagged sf Htag. step Hmerge as u0 sg Hset. ok_inv Hmerge.
  destruct (withTarget_inv _ _ _ _ _ Htag) as [-> Hsf].
  destruct (Set_Ok _ _ _ _ _ _ Hset) as (l & p & Hl & Hp & _ & W).
  injection Hl as <-.
  cbn [store heap]. unfold own_value, own_property. cbn [heap].
  pose proof (written_own_eq _ _ _ _ _ W) as Eeq.
  pose proof (written_own_ne _ _ _ _ _ W) as Ene.
  unfold own_property in Eeq, Ene.
  split; [apply lookup_insert_eq|]. split.
  - rewrite Eeq. simpl. congruence.
  - intros k' Hk' Htk'. rewrite Ene by congruence.
    destruct Hsf as [-> | (r & q & _ & W1)]; [reflexivity|].
    pose proof (written_own_ne _ _ _ _ _ W1 m k') as E1. unfold own_property in E1.
    rewrite E1 by congruence. reflexivity.
Qed.

Lemma own_path_replaces_slot_witness :
  store (state_after (decorate stack (K_factory (VRef 10%nat)) Base_prototype (Some "bar")
                        MethodDescriptor) base_decorated) !! ("K", Base_prototype)
    = Some (VRef 11%nat)
  /\ own_value (state_after (decorate stack (K_factory (VRef 10%nat)) Base_prototype
                               (Some "bar") MethodDescriptor) base_decorated)
               11%nat "bar" = Some (VRef 10%nat)
  /\ own_value (state_after (decorate stack (K_factory (VRef 10%nat)) Base_prototype
                               (Some "bar") MethodDescriptor) base_decorated)
               11%nat "foo" = Some (VRef 9%nat).
Proof.
  destruct (own_path_replaces_slot stack (K_factory (VRef 10%nat)) Base_prototype
              (Some "bar") MethodDescriptor base_decorated
              (state_after (decorate stack (K_factory (VRef 10%nat)) Base_prototype
                              (Some "bar") MethodDescriptor) base_decorated)
              11%nat eq_refl eq_refl eq_refl eq_refl) as (H1 & H2 & H3).
  split; [exact H1|]. split; [exact H2|].
  rewrite (H3 "foo"); [reflexivity | discriminate | discriminate].
Defined.

Lemma decorate_without_inheritance depth this target member site st :
  class_of this = MethodDecoratorFactory ->
  allowInheritance this = false ->
  store st !! (key this, target) = None ->
  decorate depth this target member site st =
  bind (tagged <- withTarget (spec this) target ;;
        Set_ (VRef (length (heap st))) (property_key member) tagged ;;
        ret (VRef (length (heap st))))
       (fun meta => defineMetadata (key this) meta target)
       (State (heap st ++ [Object KObject [] None]) (store st)).
Proof.
  intros Hclass Hallow Hs.
  unfold decorate. unfold bind at 1, getOwnMetadata. rewrite Hs, Hallow. simpl.
  unfold bind at 1. unfold mergeWithOwn. rewrite Hclass.
  unfold MethodDecoratorFactory_mergeWithOwn.
  unfold bind at 1. unfold or_empty_object.
  rewrite bool_decide_eq_true_2 by reflexivity. rewrite alloc_Ok.
  unfold bind at 1. rewrite Get_ref. simpl heap.
  rewrite prop_value_fresh. unfold bind at 1. simpl. reflexivity.
Qed.

(** X9 — without inheritance the ancestors are ignored.  A factory with
    [allowInheritance] off decorates a member, not named like a property of
    [Object.prototype], of a target that has no own metadata under the key,
    and returns.  Whatever the ancestors of the target carry, the target's
    own metadata is then a new map that holds the factory's spec in the
    slot of the member and nothing else, and no object that existed before,
    other than the spec itself, has changed. *)
Theorem no_inheritance_ignores_ancestors
    (depth : nat) (this : factory) (target : nat) (member : option string)
    (descriptor : site) (st st1 : state) :
  class_of this = MethodDecoratorFactory ->
  inherited_by_every_map (property_key member) = false ->
  allowInheritance this = false ->
  store st !! (key this, target) = None ->
  (forall l, spec this = VRef l -> (l < length (heap st))%nat) ->
  decorate depth this target member descriptor st = (Ok tt, st1) ->
  store st1 !! (key this, target) = Some (VRef (length (heap st)))
  /\ own_value st1 (length (heap st)) (property_key member) = Some (spec this)
  /\ (forall k', k' <> property_key member -> own_value st1 (length (heap st)) k' = None)
  /\ (forall l, (l < length (heap st))%nat -> spec this <> VRef l ->
        heap st1 !! l = heap st !! l).
Proof.
  intros Hclass Hname Hallow Hs Hlive H.
  rewrite decorate_without_inheritance in H by assumption.
  set (m := length (heap st)) in *.
  set (sa := State (heap st ++ [Object KObject [] None]) (store st)) in *.
  step H as meta s1 Hm. unfold defineMetadata in H. injection H as <-.
  step Hm as tagged sb Htag. step Hm as u0 sc Hset. ok_inv Hm.
  destruct (withTarget_inv _ _ _ _ _ Htag) as [-> Hsb].
  destruct (Set_Ok _ _ _ _ _ _ Hset) as (l0 & p & Hl0 & Hp & _ & W).
  injection Hl0 as <-.
  assert (own_property sa m = fun _ => None) as Hfresh.
  { unfold own_property, sa, m. cbn [heap]. rewrite lookup_fresh. reflexivity. }
  assert (forall k', own_property sb m k' = None) as Hb.
  { intros k'. destruct Hsb as [-> | (r & q & Hr & W1)]; [rewrite Hfresh; reflexivity|].
    rewrite (written_own_ne _ _ _ _ _ W1).
    - rewrite Hfresh. reflexivity.
    - specialize (Hlive r Hr). fold m in Hlive. intros E. injection E. lia. }
  cbn [store heap]. unfold own_value.
  assert (forall l k', own_property (State (heap sc) (<[(key this, target) := VRef m]> (store sc))) l k'
                       = own_property sc l k') as Hsame by reflexivity.
  split; [apply lookup_insert_eq|]. split; [|split].
  - rewrite Hsame, (written_own_eq _ _ _ _ _ W). simpl. congruence.
  - intros k' Hk'. rewrite Hsame, (written_own_ne _ _ _ _ _ W) by congruence.
    rewrite Hb. reflexivity.
  - intros l Hl Hne.
    rewrite (written_other _ _ _ _ _ W) by (fold m in Hl; lia).
    assert (heap sa !! l = heap st !! l) as Ha.
    { unfold sa. cbn [heap]. apply lookup_app_l. exact Hl. }
    destruct Hsb as [-> | (r & q & Hr & W1)]; [exact Ha|].
    rewrite (written_other _ _ _ _ _ W1) by congruence. exact Ha.
Qed.

Lemma no_inheritance_ignores_ancestors_witness :
  store (state_after (decorate stack (K_factory_no_inherit (VRef 10%nat)) Sub_prototype
                        (Some "foo") MethodDescriptor) base_decorated)
    !! ("K", Sub_prototype) = Some (VRef 12%nat)
  /\ own_value (state_after (decorate stack (K_factory_no_inherit (VRef 10%nat))
                               Sub_prototype (Some "foo") MethodDescriptor) base_decorated)
               12%nat "foo" = Some (VRef 10%nat)
  /\ heap (state_after (decorate stack (K_factory_no_inherit (VRef 10%nat)) Sub_prototype
                          (Some "foo") MethodDescriptor) base_decorated) !! 9%nat
     = heap base_decorated !! 9%nat.
Proof.
  destruct (no_inheritance_ignores_ancestors stack (K_factory_no_inherit (VRef 10%nat))
              Sub_prototype (Some "foo") MethodDescriptor base_decorated
              (state_after (decorate stack (K_factory_no_inherit (VRef 10%nat))
                              Sub_prototype (Some "foo") MethodDescriptor) base_decorated)
              eq_refl eq_refl eq_refl eq_refl) as (H1 & H2 & _ & H4).
  - intros l E. injection E as <-. vm_compute. lia.
  - reflexivity.
  - split; [exact H1|]. split; [exact H2|].
    apply H4; [vm_compute; lia | discriminate].
Defined.

(** ** The inheritance path shares the inherited map *)

Lemma cloneDeep_plain_object_Ok depth l o st v st' :
  heap st !! l = Some o -> o_kind o = KObject ->
  cloneDeep depth (VRef l) st = (Ok v, st') -> v = VRef l.
Proof.
  intros Hl Hk H. destruct depth as [|d]; [discriminate H|]. simpl in H.
  step H as t s1 Ht. unfold Typeof in Ht. injection Ht as <- <-.
  simpl in H. rewrite Hl in H. destruct o as [ko ps pr]. simpl in Hk. subst ko.
  simpl in H.
  step H as kd s2 Hkd. unfold kind_of in Hkd. rewrite Hl in Hkd. injection Hkd as <- <-.
  simpl in H.
  step H as names s3 Hn. step H as o0 s4 Ho. step H as r s5 Hr. ok_inv H.
  reflexivity.
Qed.

(** X10 — on the inheritance path the subclass gets the ancestor's map
    itself.  A target without own metadata is decorated by a factory that
    inherits, the inherited metadata is a plain object [m], and [decorate]
    returns: the target's own metadata is then [m], the same object, so
    every class that had [m] as its own metadata still has it and reads,
    for the member, exactly what the target reads. *)
Theorem inherited_map_is_shared
    (depth : nat) (this : factory) (target : nat) (member : string)
    (descriptor : site) (st st1 : state) (m : nat) (om : object) :
  class_of this = MethodDecoratorFactory ->
  allowInheritance this = true ->
  store st !! (key this, target) = None ->
  effective (S (length (heap st))) (heap st) (store st) (key this) target = VRef m ->
  heap st !! m = Some om -> o_kind om = KObject ->
  decorate depth this target (Some member) descriptor st = (Ok tt, st1) ->
  store st1 !! (key this, target) = Some (VRef m)
  /\ (forall base,
        base <> target -> store st !! (key this, base) = Some (VRef m) ->
        store st1 !! (key this, base) = Some (VRef m)
        /\ getMethodMetadata (key this) base (Some member) only_own st1
           = getMethodMetadata (key this) target (Some member) only_own st1).
Proof.
  intros Hclass Hallow Hs Heff Hm Hk H. unfold decorate in H.
  step H as own0 s0 Hown. unfold getOwnMetadata in Hown. rewrite Hs in Hown.
  injection Hown as <- <-. rewrite Hallow in H. simpl in H.
  step H as meta s1 Hmerge. unfold defineMetadata in H. injection H as <-.
  step Hmerge as inh sa Hget. unfold getMetadata in Hget. injection Hget as <- <-.
  step Hmerge as cloned sb Hclone.
  simpl in Heff. simpl in Hclone. rewrite Heff in Hclone.
  pose proof (cloneDeep_plain_object_Ok _ _ _ _ _ _ Hm Hk Hclone) as ->.
  pose proof (store_kept_cloneDeep depth (VRef m) st) as Hsb. rewrite Hclone in Hsb.
  pose proof (store_kept_mergeWithInherited this (VRef m) target (Some member) descriptor sb)
    as Hs1. rewrite Hmerge in Hs1. simpl in Hsb, Hs1.
  unfold mergeWithInherited in Hmerge. rewrite Hclass in Hmerge.
  unfold MethodDecoratorFactory_mergeWithInherited in Hmerge.
  step Hmerge as mv sc Hdef. unfold or_empty_object in Hdef. simpl in Hdef.
  injection Hdef as <- <-.
  step Hmerge as existing sd Hex. step Hmerge as merged se Hinh.
  step Hmerge as tagged sf Htag. step Hmerge as u0 sg Hset. ok_inv Hmerge.
  cbn [store]. split; [apply lookup_insert_eq|].
  intros base Hne Hbase.
  assert (<[(key this, target) := VRef m]> (store sg) !! (key this, base) = Some (VRef m))
    as Hb.
  { rewrite lookup_insert_ne by congruence. rewrite Hs1, Hsb. exact Hbase. }
  split; [exact Hb|].
  unfold getMethodMetadata, getAllMethodMetadata, only_own. simpl.
  unfold bind, getOwnMetadata. cbn [store]. rewrite Hb, lookup_insert_eq. reflexivity.
Qed.

Lemma inherited_map_is_shared_witness :
  store (state_after (decorate stack (K_factory (VNum 2)) Sub_prototype (Some "foo")
                        MethodDescriptor) base_decorated_1) !! ("K", Sub_prototype)
    = Some (VRef 9%nat)
  /\ store (state_after (decorate stack (K_factory (VNum 2)) Sub_prototype (Some "foo")
                           MethodDescriptor) base_decorated_1) !! ("K", Base_prototype)
     = Some (VRef 9%nat).
Proof.
  destruct (inherited_map_is_shared stack (K_factory (VNum 2)) Sub_prototype "foo"
              MethodDescriptor base_decorated_1
              (state_after (decorate stack (K_factory (VNum 2)) Sub_prototype (Some "foo")
                              MethodDescriptor) base_decorated_1)
              9%nat (Object KObject [("foo", data_property (VNum 1))] None)
              eq_refl eq_refl eq_refl eq_refl eq_refl eq_refl eq_refl) as (H1 & H2).
  split; [exact H1|].
  apply (H2 Base_prototype); [discriminate | reflexivity].
Defined.

(** X11 — a number or a boolean never replaces an inherited object.  With
    inheritance allowed, when the inherited value is an object that is not
    an array and the new spec is a number or a boolean, [inherit] returns
    the inherited object and changes nothing: [Object.assign] finds no
    property to copy, and the new spec is dropped. *)
Theorem number_spec_over_object_is_dropped
    (this : factory) (inherited : value) (st : state) :
  allowInheritance this = true ->
  number_or_boolean (spec this) = true ->
  typeof (heap st) inherited = TObject -> is_nullish inherited = false ->
  isArray (heap st) inherited = false ->
  inherit this inherited st = (Ok inherited, st).
Proof.
  intros Hallow Hnum Ht Hn Ha. unfold inherit. rewrite Hallow, Hn. simpl.
  destruct (spec this) as [| | b | n | |] eqn:Hspec; try discriminate; simpl;
    unfold bind at 1, Typeof; rewrite Ht; simpl;
    unfold bind at 1, IsArray; unfold bind at 1; rewrite Ha; reflexivity.
Qed.

Lemma number_spec_over_object_is_dropped_witness :
  inherit (K_factory (VNum 5)) (VRef 9%nat) role_admin = (Ok (VRef 9%nat), role_admin).
Proof.
  apply (number_spec_over_object_is_dropped (K_factory (VNum 5)) (VRef 9%nat) role_admin);
    reflexivity.
Defined.

(** ** The inspector, again *)

Lemma optional_member_returns v k st : exists x, optional_member v k st = (Ok x, st).
Proof.
  unfold optional_member. destruct (is_nullish v) eqn:Hn.
  - exists VUndefined. reflexivity.
  - exists (prop_value (heap st) v k). unfold Get. rewrite Hn. reflexivity.
Qed.

Lemma metadata_read_returns (own : bool) key target st :
  exists x, (if own then getOwnMetadata key target else getMetadata key target) st
            = (Ok x, st).
Proof. destruct own; eexists; reflexivity. Qed.

(** X12 — the inspector always answers and never writes.  Each of the four
    reads of [MetadataInspector], for every key, target, member, index,
    option and state, returns a value - [undefined] included - and leaves
    the state exactly as it was; none of them throws. *)
Theorem inspector_always_answers
    (key : string) (target : nat) (methodName : option string) (name : string)
    (index : nat) (options : option InspectionOptions) (st : state) :
  exists a b c d,
    getAllMethodMetadata key target options st = (Ok a, st)
    /\ getMethodMetadata key target methodName options st = (Ok b, st)
    /\ getAllParameterMetadata key target methodName options st = (Ok c, st)
    /\ getParameterMetadata key target name index options st = (Ok d, st).
Proof.
  destruct (metadata_read_returns (own_only options) key target st) as (a & Ha).
  destruct (optional_member_returns a (from_option "" methodName) st) as (b & Hb).
  destruct (optional_member_returns a name st) as (c & Hc).
  assert (exists d, optional_index c index st = (Ok d, st)) as (d & Hd).
  { unfold optional_index. destruct c as [| | | | |l]; try apply optional_member_returns.
    destruct (heap st !! l) as [[[ | items | time | ] ps pr]|];
      try apply optional_member_returns.
    eexists. reflexivity. }
  exists a, b, b, d. split; [exact Ha|].
  unfold getMethodMetadata, getParameterMetadata, getAllParameterMetadata,
    getAllMethodMetadata.
  split; [|split].
  - unfold bind. rewrite Ha. exact Hb.
  - unfold bind. rewrite Ha. exact Hb.
  - unfold bind at 1. unfold bind at 1. rewrite Ha. simpl from_option. rewrite Hc.
    exact Hd.
Qed.

(** X13 — a decorated class reads its own map.  Once [decorate] has
    returned for a target, every read of a member of that target under the
    key gives the same answer with and without [ownMetadataOnly]: the
    target's own map is consulted alone, whether or not it holds the
    member, and the ancestors are no longer looked at. *)
Theorem decorated_class_reads_own
    (depth : nat) (this : factory) (target : nat) (member : option string)
    (descriptor : site) (st st1 : state) :
  class_of this = MethodDecoratorFactory ->
  decorate depth this target member descriptor st = (Ok tt, st1) ->
  forall name options,
    getMethodMetadata (key this) target name options st1
    = getMethodMetadata (key this) target name only_own st1.
Proof.
  intros Hclass H name options.
  destruct (decorate_Ok_slot _ _ _ _ _ _ _ _ Hclass H) as (m & om & p & Hs & _).
  unfold getMethodMetadata, getAllMethodMetadata.
  destruct (own_only options); [reflexivity|].
  unfold only_own. simpl own_only. cbv iota.
  unfold bind, getMetadata, getOwnMetadata. simpl. rewrite Hs. reflexivity.
Qed.

Lemma decorated_class_reads_own_witness :
  getMethodMetadata "K" Base_prototype (Some "bar") None base_decorated
  = getMethodMetadata "K" Base_prototype (Some "bar") only_own base_decorated.
Proof.
  apply (decorated_class_reads_own stack (K_factory (VRef 9%nat)) Base_prototype
           (Some "foo") MethodDescriptor two_specs base_decorated eq_refl eq_refl
           (Some "bar") None).
Defined.

(** ** The constructor *)

Lemma substring_all (t : string) : substring 0 (String.length t) t = t.
Proof. induction t as [|c t IH]; simpl; [reflexivity | rewrite IH; reflexivity]. Qed.

Lemma substring_suffix (s t : string) :
  substring (String.length s) (String.length t) (s +:+ t) = t.
Proof. induction s as [|c s IH]; simpl; [apply substring_all | exact IH]. Qed.

Lemma substring_prefix (s t : string) : substring 0 (String.length s) (s +:+ t) = s.
Proof.
  induction s as [|c s IH]; simpl.
  - destruct t; reflexivity.
  - rewrite IH. reflexivity.
Qed.

Lemma length_append (s t : string) :
  String.length (s +:+ t) = (String.length s + String.length t)%nat.
Proof. induction s as [|c s IH]; simpl; [reflexivity | rewrite IH; reflexivity]. Qed.

(** X14 — the derived decorator name.  [name.replace(/Factory$/, '')]
    strips one trailing ["Factory"]: a factory class named [s ++ "Factory"]
    gives, when no [decoratorName] option is passed, the decorator name
    [s]. *)
Theorem derived_decorator_name (s : string) : replace_Factory (s +:+ "Factory") = s.
Proof.
  unfold replace_Factory. rewrite length_append. simpl String.length.
  replace (String.length s + 7 - 7)%nat with (String.length s) by lia.
  replace (7 <=? String.length s + 7)%nat with true by (symmetry; apply Nat.leb_le; lia).
  pose proof (substring_suffix s "Factory") as E. cbn [String.length] in E.
  rewrite E, substring_prefix. reflexivity.
Qed.

(** X15 — the options of the constructor.  When the constructor returns:
    inheritance is on exactly when the option [allowInheritance] is left
    out or is [true] - passing it as [undefined] turns it off, the default
    does not apply -; the same holds for [cloneInputSpec], and with cloning
    off the factory keeps the caller's spec and the state is untouched;
    in every case the reflection store is as before and every object that
    existed is as it was. *)
Theorem constructor_options
    (depth : nat) (cls : factory_class) (k : string) (sp : value)
    (opts : option DecoratorOptions) (st : state) (this : factory) (st' : state) :
  new_factory depth cls k sp opts st = (Ok this, st') ->
  allowInheritance this
    = match opt_allowInheritance (from_option no_options opts) with
      | Absent | Given true => true
      | _ => false
      end
  /\ match opt_cloneInputSpec (from_option no_options opts) with
     | Absent | Given true => True
     | _ => spec this = sp /\ st' = st
     end
  /\ store st' = store st
  /\ heap st `prefix_of` heap st'.
Proof.
  unfold new_factory. intros H. step H as sp' s1 Hclone. ok_inv H.
  unfold allowInheritance. cbn [options opt_allowInheritance spec].
  split; [|split].
  - destruct (opt_allowInheritance (from_option no_options opts)) as [| |[|]];
      reflexivity.
  - cbn [opt_cloneInputSpec] in Hclone.
    destruct (opt_cloneInputSpec (from_option no_options opts)) as [| |[|]];
      simpl in Hclone; try exact I; injection Hclone as <- <-; auto.
  - cbn [opt_cloneInputSpec] in Hclone.
    destruct (flag (spread_over true (opt_cloneInputSpec (from_option no_options opts)))).
    + pose proof (cloneDeep_only_allocates_aux depth sp st) as Hc.
      rewrite Hclone in Hc. exact Hc.
    + injection Hclone as <- <-. split; reflexivity.
Qed.

Lemma constructor_options_witness :
  allowInheritance
    (Factory MethodDecoratorFactory "K" (VRef 9%nat)
             (Options Absent Undefined (Given false)) "MethodDecorator") = false
  /\ new_factory stack MethodDecoratorFactory "K" (VRef 9%nat)
       (Some (Options Absent Undefined (Given false))) role_admin
     = (Ok (Factory MethodDecoratorFactory "K" (VRef 9%nat)
                    (Options Absent Undefined (Given false)) "MethodDecorator"),
        role_admin).
Proof.
  assert (new_factory stack MethodDecoratorFactory "K" (VRef 9%nat)
            (Some (Options Absent Undefined (Given false))) role_admin
          = (Ok (Factory MethodDecoratorFactory "K" (VRef 9%nat)
                         (Options Absent Undefined (Given false)) "MethodDecorator"),
             role_admin)) as E by reflexivity.
  destruct (constructor_options _ _ _ _ _ _ _ _ E) as (H1 & _).
  split; [exact H1 | exact E].
Defined.

(** ** Naming the site *)

(** X16 — the names of constructor sites.  [getTargetName] reads and never
    writes; for a parameter index or a method descriptor, an empty member
    name and a missing member name give the same result, the one of the
    member ["constructor"]; with neither member nor descriptor the name
    reads ["class ..."], while an empty member name without a descriptor
    gives ["....constructor"]. *)
Theorem constructor_site_names (target : nat) (st : state) :
  (forall member descriptor, snd (getTargetName target member descriptor st) = st)
  /\ (forall i, getTargetName target (Some "") (ParameterIndex i) st
                = getTargetName target None (ParameterIndex i) st)
  /\ getTargetName target (Some "") MethodDescriptor st
     = getTargetName target None MethodDescriptor st
  /\ (forall name st',
        getTargetName target None NoDescriptor st = (Ok name, st') ->
        exists n, name = "class " +:+ n)
  /\ (forall name st',
        getTargetName target (Some "") NoDescriptor st = (Ok name, st') ->
        exists n, name = n +:+ ".constructor").
Proof.
  split; [intros; apply getTargetName_unchanged|].
  split; [reflexivity|]. split; [reflexivity|]. split.
  - intros name st' H. unfold getTargetName in H.
    step H as fn s1 Hfn. step H as n s2 Hn. ok_inv H. eauto.
  - intros name st' H. unfold getTargetName in H.
    step H as fn s1 Hfn. step H as n s2 Hn. simpl in H. ok_inv H. eauto.
Qed.

Lemma constructor_site_names_witness :
  getTargetName Base None NoDescriptor classes_declared = (Ok "class Base", classes_declared)
  /\ getTargetName Base (Some "") (ParameterIndex 0) classes_declared
     = (Ok "Base.constructor[0]", classes_declared)
  /\ exists n, "class Base" = "class " +:+ n.
Proof.
  destruct (constructor_site_names Base classes_declared) as (_ & _ & _ & H & _).
  split; [reflexivity|]. split; [reflexivity|].
  apply (H "class Base" classes_declared). reflexivity.
Defined.

(** ** Duplicates, and the first decoration *)

(** X17 — duplicate detection goes by key and site, not by decorator.
    Once a decorator with an object-valued spec has been applied to a
    member of a target, every method decorator of the same key - another
    instance, with any spec and any options - applied directly to the same
    member of the same target raises the [DuplicateDecorationError] that
    carries its own decorator name, and changes nothing. *)
Theorem duplicate_detection_is_per_key
    (depth depth' : nat) (f g : factory) (target : nat) (member : option string)
    (descriptor : site) (st st1 : state) (name : string) :
  class_of f = MethodDecoratorFactory -> class_of g = MethodDecoratorFactory ->
  key g = key f ->
  object_valued st (spec f) ->
  property_key member <> TARGET ->
  decorate depth f target member descriptor st = (Ok tt, st1) ->
  getTargetName target member descriptor st1 = (Ok name, st1) ->
  decorate depth' g target member descriptor st1
  = (Throw (DuplicateDecorationError
              ("duplicate " +:+ decoratorName g +:+ " on " +:+ name)), st1).
Proof.
  intros Hf Hg Hkey Hov Hk Hdec Hname.
  apply decorate_tagged_duplicate; [exact Hg | | exact Hname].
  rewrite Hkey. eapply decorate_Ok_tagged; eauto.
Qed.

Lemma duplicate_detection_is_per_key_witness :
  decorate 0 (Factory MethodDecoratorFactory "K" (VNum 7)
                      (Options (Given "Role") (Given false) (Given true)) "Role")
    Base_prototype (Some "foo") MethodDescriptor base_decorated
  = (Throw (DuplicateDecorationError "duplicate Role on Base.prototype.foo()"),
     base_decorated).
Proof.
  apply (duplicate_detection_is_per_key stack 0 (K_factory (VRef 9%nat))
           (Factory MethodDecoratorFactory "K" (VNum 7)
                    (Options (Given "Role") (Given false) (Given true)) "Role")
           Base_prototype (Some "foo") MethodDescriptor two_specs base_decorated
           "Base.prototype.foo()").
  - reflexivity.
  - reflexivity.
  - reflexivity.
  - split; reflexivity.
  - discriminate.
  - reflexivity.
  - reflexivity.
Defined.

Lemma Set_new_map (st : state) (m : nat) (k : string) (x : value) :
  heap st !! m = Some (Object KObject [] None) ->
  exists st', Set_ (VRef m) k x st = (Ok tt, st') /\
              property_written st st' m k (data_property x).
Proof.
  intros Hm. unfold Set_. rewrite Hm. cbn [o_props own].
  unfold find_property. cbn [lookup_chain]. rewrite Hm. cbn [o_props own o_proto].
  eexists. split; [reflexivity|]. eexists. split; [exact Hm | reflexivity].
Qed.


